(** * flatpak-bundler: the bundling pipeline of [index.js]

    A shallow embedding of [index.js] and of the parts of the JavaScript
    runtime it relies on (dynamic values, property access, lodash's
    [defaults] and [cloneDeepWith], Node's POSIX [path] module, promises
    chained with [then]), followed by the properties of the pipeline.

    Conventions.
    - JavaScript values are the closed tree type [JsValue].  Objects are
      association lists in insertion order; every read goes through
      [prop], which returns the first binding of a key, and every write
      through [obj_set], which keeps keys unique.  Numbers are integers
      (no fractional numbers, no NaN); prototypes are not modelled.
    - A thrown exception or a rejected promise is [Throw e].
    - File-system calls and child processes are calls to an environment
      [Sys W] over an arbitrary world type [W]; every call is recorded,
      with its outcome, in the trace of the computation. *)

From Stdlib Require Import ZArith Lia Ascii.
From stdpp Require Import base option list strings pretty gmap.

Set Warnings "-register-all,-clear-no-such-hyp".
Local Open Scope string_scope.
Local Open Scope list_scope.

(** ** JavaScript values *)

Inductive JsValue : Type :=
| JUndefined
| JNull
| JBool (b : bool)
| JNum (z : Z)
| JStr (s : string)
| JArr (l : list JsValue)
| JObj (kvs : list (string * JsValue)).

(** Values that can be thrown, or with which a promise is rejected. *)
Inductive JsError : Type :=
| TypeError (msg : string)    (* raised by the runtime or by a library *)
| Error (msg : string)        (* [new Error(msg)] *)
| SystemError (code : string) (* an errno reported by fs or child_process *).


Inductive Result (A : Type) : Type :=
| Ok (a : A)
| Throw (e : JsError).
Arguments Ok {A} a.
Arguments Throw {A} e.

Definition is_ok {A} (r : Result A) : bool :=
  match r with Ok _ => true | Throw _ => false end.

(** Exceptions propagate through [x ← r; k]. *)
#[global] Instance Result_ret : MRet Result := λ A a, Ok a.
#[global] Instance Result_bind : MBind Result := λ A B f r,
  match r with
  | Ok a => f a
  | Throw e => Throw e
  end.

Module Js.

(** [!value] is [negb (truthy value)]. *)
Definition truthy (v : JsValue) : bool :=
  match v with
  | JUndefined | JNull => false
  | JBool b => b
  | JNum z => negb (z =? 0)%Z
  | JStr s => negb (String.eqb s "")
  | JArr _ | JObj _ => true
  end.

(** [typeof value === 'undefined'] *)
Definition is_undefined (v : JsValue) : bool :=
  match v with JUndefined => true | _ => false end.

(** [typeof value === 'object'] *)
Definition typeof_object (v : JsValue) : bool :=
  match v with JNull | JArr _ | JObj _ => true | _ => false end.

(** [typeof value === 'string'] *)
Definition is_string (v : JsValue) : bool :=
  match v with JStr _ => true | _ => false end.

(** [value === true] *)
Definition is_true (v : JsValue) : bool :=
  match v with JBool true => true | _ => false end.

(** String conversion, as performed by a template literal. *)
Fixpoint toString (v : JsValue) : string :=
  match v with
  | JUndefined => "undefined"
  | JNull => "null"
  | JBool true => "true"
  | JBool false => "false"
  | JNum z => pretty z
  | JStr s => s
  | JArr l =>
      String.concat ","
        (map (λ x, match x with
                   | JUndefined | JNull => ""
                   | _ => toString x
                   end) l)
  | JObj _ => "[object Object]"
  end.

(** *** Properties *)

Fixpoint lookup_key (kvs : list (string * JsValue)) (key : string)
  : option JsValue :=
  match kvs with
  | [] => None
  | (k, v) :: rest => if String.eqb k key then Some v else lookup_key rest key
  end.

(** [object[key] = value] on a plain object: an existing key keeps its
    position, a new key is added last. *)
Fixpoint obj_set (kvs : list (string * JsValue)) (key : string) (v : JsValue)
  : list (string * JsValue) :=
  match kvs with
  | [] => [(key, v)]
  | (k, w) :: rest =>
      if String.eqb k key then (k, v) :: rest else (k, w) :: obj_set rest key v
  end.

(** The index named by a property key of an array-like of length [len]:
    the key has to be the canonical decimal form of the index. *)
Definition index_of_key (len : nat) (key : string) : option nat :=
  find (λ i, String.eqb (pretty i) key) (seq 0 len).

Definition chars (s : string) : list JsValue :=
  map (λ c, JStr (String c "")) (String.list_ascii_of_string s).

Definition element (l : list JsValue) (key : string) : JsValue :=
  if String.eqb key "length" then JNum (Z.of_nat (length l))
  else match index_of_key (length l) key with
       | Some i => nth i l JUndefined
       | None => JUndefined
       end.

(** [value[key]] where [value] is neither [undefined] nor [null]. *)
Definition prop (v : JsValue) (key : string) : JsValue :=
  match v with
  | JObj kvs => default JUndefined (lookup_key kvs key)
  | JArr l => element l key
  | JStr s => element (chars s) key
  | _ => JUndefined
  end.

(** [value[key]]: reading a property of [undefined] or [null] throws. *)
Definition get (v : JsValue) (key : string) : Result JsValue :=
  match v with
  | JUndefined => Throw (TypeError "Cannot read property of undefined")
  | JNull => Throw (TypeError "Cannot read property of null")
  | _ => Ok (prop v key)
  end.

(** [value[key] = x] in strict mode, returning the object after the
    assignment: assigning to a property of a primitive throws.  (The
    program never assigns a named property to an array.) *)
Definition set (v : JsValue) (key : string) (x : JsValue) : Result JsValue :=
  match v with
  | JObj kvs => Ok (JObj (obj_set kvs key x))
  | JArr l => Ok (JArr l)
  | JUndefined => Throw (TypeError "Cannot set property of undefined")
  | JNull => Throw (TypeError "Cannot set property of null")
  | _ => Throw (TypeError "Cannot create property on a primitive")
  end.

(** The own enumerable string-keyed properties, in enumeration order. *)
Definition entries (v : JsValue) : list (string * JsValue) :=
  match v with
  | JObj kvs => kvs
  | JArr l => imap (λ i x, (pretty i, x)) l
  | JStr s => imap (λ i x, (pretty i, x)) (chars s)
  | _ => []
  end.

Definition Object_keys (v : JsValue) : list string := map fst (entries v).

Definition has_key (v : JsValue) (key : string) : bool :=
  bool_decide (key ∈ Object_keys v).

(** *** Arrays *)

(** [array.concat(x)] returns a new array and leaves [array] as it is. *)
Definition Array_concat (array : list JsValue) (x : JsValue) : list JsValue :=
  match x with
  | JArr l => array ++ l
  | _ => array ++ [x]
  end.

(** [array.push(x)] *)
Definition Array_push (array : list JsValue) (x : JsValue) : list JsValue :=
  array ++ [x].

(** *** lodash *)

(** One source of [_.defaults]: a key of the source is assigned when the
    destination's value for it is [undefined]. *)
Definition assign_default (source : JsValue)
    (object : list (string * JsValue)) (key : string)
  : list (string * JsValue) :=
  if is_undefined (prop (JObj object) key)
  then obj_set object key (prop source key)
  else object.

Definition defaults_from (object : list (string * JsValue)) (source : JsValue)
  : list (string * JsValue) :=
  fold_left (assign_default source) (Object_keys source) object.

(** [_.defaults(object, ...sources)] *)
Definition defaults (object : list (string * JsValue))
    (sources : list JsValue) : JsValue :=
  JObj (fold_left defaults_from sources object).

(** [_.cloneDeepWith(value, customizer)]: a result of the customizer
    other than [undefined] is returned as it is; otherwise arrays and
    objects are cloned member by member, and other values returned. *)
Fixpoint cloneDeepWith (customizer : JsValue → JsValue) (value : JsValue)
  : JsValue :=
  match customizer value with
  | JUndefined =>
      match value with
      | JArr l => JArr (map (cloneDeepWith customizer) l)
      | JObj kvs =>
          JObj (map (λ kv, (fst kv, cloneDeepWith customizer (snd kv))) kvs)
      | _ => value
      end
  | result => result
  end.

(** [_.endsWith(string, target)] *)
Definition endsWith (s target : string) : bool :=
  bool_decide (String.list_ascii_of_string target `suffix_of` String.list_ascii_of_string s).

End Js.

(** ** Node's [path] module (POSIX) *)

Module Path.

Definition sep : string := "/".

Definition isAbsolute (p : string) : bool :=
  match p with
  | String c _ => Ascii.eqb c "/"%char
  | EmptyString => false
  end.

Definition assertPath (v : JsValue) : Result string :=
  match v with
  | JStr p => Ok p
  | _ => Throw (TypeError "Path must be a string")
  end.

(** [s.split('/')] *)
Fixpoint split (s : string) : list string :=
  match s with
  | EmptyString => [EmptyString]
  | String c rest =>
      if Ascii.eqb c "/"%char then EmptyString :: split rest
      else match split rest with
           | [] => [String c EmptyString]
           | word :: words => String c word :: words
           end
  end.

(** [normalizeArray(parts, allowAboveRoot)]; the result under
    construction is a stack whose top is its last element. *)
Fixpoint normalizeArray_from (allowAboveRoot : bool) (parts : list string)
    (stack : list string) : list string :=
  match parts with
  | [] => rev stack
  | p :: parts =>
      if String.eqb p "" || String.eqb p "." then
        normalizeArray_from allowAboveRoot parts stack
      else if String.eqb p ".." then
        match stack with
        | top :: below =>
            if negb (String.eqb top "..") then
              normalizeArray_from allowAboveRoot parts below
            else if allowAboveRoot then
              normalizeArray_from allowAboveRoot parts (".." :: stack)
            else normalizeArray_from allowAboveRoot parts stack
        | [] =>
            if allowAboveRoot then
              normalizeArray_from allowAboveRoot parts [".."]
            else normalizeArray_from allowAboveRoot parts stack
        end
      else normalizeArray_from allowAboveRoot parts (p :: stack)
  end.

Definition normalizeArray (parts : list string) (allowAboveRoot : bool)
  : list string :=
  normalizeArray_from allowAboveRoot parts [].

Definition last_char (s : string) : option ascii :=
  last (String.list_ascii_of_string s).

(** [path.normalize(path)] *)
Definition normalize (path : string) : string :=
  let absolute := isAbsolute path in
  let trailingSlash := bool_decide (last_char path = Some "/"%char) in
  let path := String.concat "/" (normalizeArray (split path) (negb absolute)) in
  let path := if String.eqb path "" && negb absolute then "." else path in
  let path :=
    if negb (String.eqb path "") && trailingSlash then path +:+ "/" else path in
  (if absolute then "/" else "") +:+ path.

Fixpoint join_from (joined : string) (segments : list JsValue)
  : Result string :=
  match segments with
  | [] => Ok joined
  | v :: segments =>
      segment ← assertPath v;
      if String.eqb segment "" then join_from joined segments
      else if String.eqb joined "" then join_from segment segments
      else join_from (joined +:+ "/" +:+ segment) segments
  end.

(** [path.join(...segments)] *)
Definition join (segments : list JsValue) : Result string :=
  joined ← join_from "" segments;
  Ok (normalize joined).

(** The loop of [path.resolve], from the last argument down to the
    current directory [cwd] of the process. *)
Fixpoint resolve_from (cwd : string) (resolvedPath : string)
    (paths : list JsValue) : Result (string * bool) :=
  match paths with
  | [] =>
      if String.eqb cwd "" then Ok (resolvedPath, false)
      else Ok (cwd +:+ "/" +:+ resolvedPath, isAbsolute cwd)
  | v :: paths =>
      path ← assertPath v;
      if String.eqb path "" then resolve_from cwd resolvedPath paths
      else if isAbsolute path then Ok (path +:+ "/" +:+ resolvedPath, true)
      else resolve_from cwd (path +:+ "/" +:+ resolvedPath) paths
  end.

(** [path.resolve(...paths)] *)
Definition resolve (cwd : string) (paths : list JsValue) : Result string :=
  '(resolvedPath, resolvedAbsolute) ← resolve_from cwd "" (rev paths);
  let resolvedPath :=
    String.concat "/"
      (normalizeArray (split resolvedPath) (negb resolvedAbsolute)) in
  let result := (if resolvedAbsolute then "/" else "") +:+ resolvedPath in
  Ok (if String.eqb result "" then "." else result).

Definition is_slash (c : ascii) : bool := Ascii.eqb c "/"%char.

Fixpoint drop_while {A} (f : A → bool) (l : list A) : list A :=
  match l with
  | [] => []
  | x :: l' => if f x then drop_while f l' else l
  end.

(** [path.dirname(path)]: scanning from the end and never looking at
    the first character, skip the trailing separators and the last
    component; the separator found there ends the directory name. *)
Definition dirname (path : string) : string :=
  match path with
  | EmptyString => "."
  | String first rest =>
      let hasRoot := is_slash first in
      let scanned :=
        drop_while (λ c, negb (is_slash c))
          (drop_while is_slash (rev (String.list_ascii_of_string rest))) in
      match scanned with
      | [] => if hasRoot then "/" else "."
      | _ :: before =>
          if hasRoot && bool_decide (before = []) then "//"
          else String first (String.string_of_list_ascii (rev before))
      end
  end.

End Path.

(** ** A reference instance of [_.kebabCase]

    The program is modelled over an arbitrary key-rewriting function
    [kebabCase].  [Kebab.kebabCase] is lodash's function on ASCII
    identifiers: words end at characters that are neither letters nor
    digits, between a lower-case letter and an upper-case one, between
    letters and digits, and before the last capital of a run of capitals
    that a lower-case letter follows; the words are put in lower case
    and joined with dashes.  (Apostrophes, ordinals such as [1st] and
    characters outside ASCII are not covered.) *)

Module Kebab.

Definition between (lo hi : nat) (c : ascii) : bool :=
  (lo <=? nat_of_ascii c)%nat && (nat_of_ascii c <=? hi)%nat.

Definition is_lower : ascii → bool := between 97 122.
Definition is_upper : ascii → bool := between 65 90.
Definition is_digit : ascii → bool := between 48 57.
Definition is_letter (c : ascii) : bool := is_lower c || is_upper c.
Definition is_alnum (c : ascii) : bool := is_letter c || is_digit c.

Definition toLowerCase (c : ascii) : ascii :=
  if is_upper c then ascii_of_nat (nat_of_ascii c + 32) else c.

(** Does a new word start at [c], which follows [prev] and precedes
    [next] inside a run of letters and digits? *)
Definition starts_word (prev c : ascii) (next : option ascii) : bool :=
  (is_lower prev && is_upper c)
  || (is_digit prev && is_letter c)
  || (is_letter prev && is_digit c)
  || (is_upper prev && is_upper c
      && match next with Some n => is_lower n | None => false end).

Definition flush (word : list ascii) : list (list ascii) :=
  match word with [] => [] | _ => [word] end.

Fixpoint words_from (prev : option ascii) (word : list ascii)
    (s : list ascii) : list (list ascii) :=
  match s with
  | [] => flush word
  | c :: rest =>
      if is_alnum c then
        match prev with
        | Some p =>
            if starts_word p c (head rest)
            then flush word ++ words_from (Some c) [c] rest
            else words_from (Some c) (word ++ [c]) rest
        | None => words_from (Some c) (word ++ [c]) rest
        end
      else flush word ++ words_from None [] rest
  end.

Definition words (s : string) : list string :=
  map (λ w, String.string_of_list_ascii (map toLowerCase w))
    (words_from None [] (String.list_ascii_of_string s)).

Definition kebabCase (s : string) : string := String.concat "-" (words s).

End Kebab.

(** ** The environment: file system and child processes *)

Inductive SpawnResult : Type :=
| SpawnError (e : JsError)      (* the ['error'] event: the process never started *)
| Closed (code : option Z)      (* the ['close'] event; no code if killed by a signal *).

(** The operations the program asks of its environment, over a world
    [W]: [tmp.dir], and from fs-extra [mkdirs], [writeFile], [copy] and
    [symlink], and [child_process.spawn] run to its end. *)
Class Sys (W : Type) : Type := {
  sys_tmpdir : W → Result string * W;
  sys_mkdirs : JsValue → W → Result () * W;
  sys_writeFile : JsValue → JsValue → W → Result () * W;
  sys_copy : string → string → W → Result () * W;
  sys_symlink : string → string → W → Result () * W;
  sys_spawn : string → list JsValue → JsValue → W → SpawnResult * W
}.

(** What an observer of a run sees, in order. *)
Inductive Event : Type :=
| EvTmpDir (r : Result string)
| EvMkdirs (dir : JsValue) (r : Result ())
| EvWriteFile (file data : JsValue) (r : Result ())
| EvCopy (src dest : string) (r : Result ())
| EvSymlink (target dest : string) (r : Result ())
| EvSpawn (command : string) (args : list JsValue) (cwd : JsValue)
    (r : SpawnResult)
| EvCallback (outcome : Result (JsValue * JsValue)).

(** ** Promises

    A promise-returning computation is run to its settlement: from a
    world it gives the value it is fulfilled with or the error it is
    rejected with, the world it leaves and the events it caused. *)

Definition Async (W A : Type) : Type := W → Result A * W * list Event.

#[global] Instance Async_ret {W} : MRet (Async W) := λ A a w, (Ok a, w, []).

(** [p.then(f)]: [f] runs if [p] is fulfilled; a rejection skips it. *)
#[global] Instance Async_bind {W} : MBind (Async W) := λ A B f p w,
  match p w with
  | (Ok a, w1, t1) => let '(r, w2, t2) := f a w1 in (r, w2, t1 ++ t2)
  | (Throw e, w1, t1) => (Throw e, w1, t1)
  end.

(** A synchronous result inside a [then] callback: a thrown exception
    rejects the promise of the callback. *)
Definition settle {W A} (r : Result A) : Async W A := λ w, (r, w, []).

(** A promise that is started and whose settlement nobody waits for. *)
Definition detached {W A} (p : Async W A) : Async W () := λ w,
  let '(_, w1, t1) := p w in (Ok (), w1, t1).

(** [.then(() => s1).then(() => s2)...] *)
Fixpoint then_chain {W} (stages : list (Async W ())) : Async W () :=
  match stages with
  | [] => mret ()
  | stage :: stages => stage ;; then_chain stages
  end.

(** [Promise.all(items.map(f))], linearised: the callback [f] starts the
    promise of each item in turn and every started promise runs to its
    settlement, in the order of the items; an exception thrown by [f]
    ends the [map] at once; otherwise the result is rejected with the
    first rejection, if any. *)
Fixpoint all_from {W} (rejected : option JsError)
    (f : JsValue → Result (Async W ())) (items : list JsValue) : Async W () :=
  match items with
  | [] => settle (match rejected with Some e => Throw e | None => Ok () end)
  | item :: items =>
      match f item with
      | Throw e => settle (Throw e)
      | Ok p => λ w,
          let '(r, w1, t1) := p w in
          let rejected :=
            match rejected, r with
            | None, Throw e => Some e
            | _, _ => rejected
            end in
          let '(r', w2, t2) := all_from rejected f items w1 in
          (r', w2, t1 ++ t2)
      end
  end.

Definition Promise_all_map {W} (f : JsValue → Result (Async W ()))
    (items : list JsValue) : Async W () :=
  all_from None f items.

(** ** The program *)

Section Bundler.

(** [_.kebabCase] *)
Variable kebabCase : string → string.

(** [process.cwd()] *)
Variable cwd : string.

Context {W : Type} `{!Sys W}.

(** The promisified calls, each recorded with its outcome. *)

Definition tmpdir : Async W string := λ w,
  let '(r, w1) := sys_tmpdir w in (r, w1, [EvTmpDir r]).

Definition mkdirs (dir : JsValue) : Async W () := λ w,
  let '(r, w1) := sys_mkdirs dir w in (r, w1, [EvMkdirs dir r]).

Definition writeFile (file data : JsValue) : Async W () := λ w,
  let '(r, w1) := sys_writeFile file data w in (r, w1, [EvWriteFile file data r]).

Definition copy (src dest : string) : Async W () := λ w,
  let '(r, w1) := sys_copy src dest w in (r, w1, [EvCopy src dest r]).

Definition symlink (target dest : string) : Async W () := λ w,
  let '(r, w1) := sys_symlink target dest w in
  (r, w1, [EvSymlink target dest r]).

(** The customizer of [kebabify]. *)
Definition kebabify_customizer (value : JsValue) : JsValue :=
  if negb (Js.truthy value) || negb (Js.typeof_object value) then value
  else
    JObj (fold_left
            (λ newValue key,
               Js.obj_set newValue (kebabCase key) (Js.prop value key))
            (Js.Object_keys value) []).

Definition kebabify (object : JsValue) : JsValue :=
  Js.cloneDeepWith kebabify_customizer object.

(** The text of the exit status in the error of [spawnWithLogging]. *)
Definition status_text (code : option Z) : string :=
  match code with
  | Some c => pretty c
  | None => "null"
  end.

Definition exit_error (command : string) (code : option Z) : JsError :=
  Error (command +:+ " failed with status code " +:+ status_text code).

(** The promise settles with the first of the child's events: the
    ['error'] event, or ['close'] with the exit status.  Logging is left
    out. *)
Definition spawnWithLogging (options : JsValue) (command : string)
    (args : list JsValue) : Async W () := λ w,
  match Js.get options "working-dir" with
  | Throw e => (Throw e, w, [])
  | Ok dir =>
      let '(r, w1) := sys_spawn command args dir w in
      (match r with
       | SpawnError error => Throw error
       | Closed code =>
           if bool_decide (code = Some 0%Z) then Ok ()
           else Throw (exit_error command code)
       end, w1, [EvSpawn command args dir r])
  end.

(** [args] after the call. *)
Definition addCommandLineOption (args : list JsValue) (name : string)
    (value : JsValue) : list JsValue :=
  if negb (Js.truthy value) then args
  else if Js.is_true value then Js.Array_push args (JStr ("--" +:+ name))
  else
    Js.Array_push args (JStr ("--" +:+ name +:+ "=" +:+ Js.toString value)).

(** [options[key] = path.resolve(options[key])] *)
Definition resolve_option (options : JsValue) (key : string)
  : Result JsValue :=
  value ← Js.get options key;
  resolved ← Path.resolve cwd [value];
  Js.set options key (JStr resolved).

Definition getOptionsWithDefaults (options : JsValue) : Result JsValue :=
  workingDir ← Js.get options "working-dir";
  buildDir ← Path.join [workingDir; JStr "build"];
  repoDir ← Path.join [workingDir; JStr "repo"];
  manifestPath ← Path.join [workingDir; JStr "manifest.json"];
  let defaults :=
    JObj [("build-dir", JStr buildDir);
          ("repo-dir", JStr repoDir);
          ("manifest-path", JStr manifestPath);
          ("extra-flatpak-builder-args", JArr []);
          ("extra-flatpak-build-bundle-args", JArr [])] in
  let options := Js.defaults [] [options; defaults] in
  options ← resolve_option options "working-dir";
  options ← resolve_option options "build-dir";
  options ← resolve_option options "repo-dir";
  options ← resolve_option options "manifest-path";
  options ← resolve_option options "bundle-path";
  Ok options.

Definition getManifestWithDefaults (manifest : JsValue) : Result JsValue :=
  let defaults :=
    [("branch", JStr "master");
     ("sdk", JStr "org.freedesktop.Sdk");
     ("runtime", JStr "org.freedesktop.Platform");
     ("modules", JArr []);
     ("files", JArr []);
     ("symlinks", JArr [])] in
  runtime ← Js.get manifest "runtime";
  let defaults :=
    if Js.is_undefined runtime
    then Js.obj_set defaults "runtime-version" (JStr "1.4")
    else defaults in
  Ok (Js.defaults [] [manifest; JObj defaults]).

(** Reading [options['working-dir']] happens before any promise exists:
    if it throws, so does the call.  The promise is fulfilled with
    [options] as the call leaves it. *)
Definition ensureWorkingDir (options : JsValue) : Result (Async W JsValue) :=
  workingDir ← Js.get options "working-dir";
  Ok (if negb (Js.truthy workingDir) then
        dir ← tmpdir;
        settle (Js.set options "working-dir" (JStr dir))
      else
        mkdirs workingDir;; mret options).

(** The manifest is written as [JSON.stringify(manifest, null, '  ')];
    the event keeps the manifest itself. *)
Definition writeJsonFile (options manifest : JsValue) : Async W () :=
  file ← settle (Js.get options "manifest-path");
  writeFile file manifest.

(** [array.map(f)] is there for arrays only. *)
Definition Array_of (v : JsValue) : Result (list JsValue) :=
  match v with
  | JArr l => Ok l
  | JUndefined | JNull => Throw (TypeError "Cannot read property 'map'")
  | _ => Throw (TypeError "map is not a function")
  end.

Definition copyFile (options sourceDest : JsValue) : Result (Async W ()) :=
  source0 ← Js.get sourceDest "0";
  source ← Path.resolve cwd [source0];
  buildDir ← Js.get options "build-dir";
  dest1 ← Js.get sourceDest "1";
  dest ← Path.join [buildDir; JStr "files"; dest1];
  let dir := dest in
  let dir := if negb (Js.endsWith dir Path.sep) then Path.dirname dir else dir in
  Ok (mkdirs (JStr dir);; copy source dest).

Definition copyFiles (options manifest : JsValue) : Async W () :=
  files ← settle (Js.get manifest "files" ≫= Array_of);
  Promise_all_map (copyFile options) files.

(** The callback given to [then] starts [symlink] and returns nothing:
    the promise of the pair does not wait for the link. *)
Definition createSymlink (options targetDest : JsValue)
  : Result (Async W ()) :=
  target0 ← Js.get targetDest "0";
  target ← Path.join [JStr "/app"; target0];
  buildDir ← Js.get options "build-dir";
  dest1 ← Js.get targetDest "1";
  dest ← Path.join [buildDir; JStr "files"; dest1];
  let dir := Path.dirname dest in
  Ok (mkdirs (JStr dir);; detached (symlink target dest)).

Definition createSymlinks (options manifest : JsValue) : Async W () :=
  symlinks ← settle (Js.get manifest "symlinks" ≫= Array_of);
  Promise_all_map (createSymlink options) symlinks.

(** The argument list [flatpakBuilder] hands to [flatpak-builder]. *)
Definition flatpakBuilder_args (options : JsValue) (finish : bool)
  : Result (list JsValue) :=
  let args := [] in
  arch ← Js.get options "arch";
  let args := addCommandLineOption args "arch" arch in
  gpgSign ← Js.get options "gpg-sign";
  let args := addCommandLineOption args "gpg-sign" gpgSign in
  gpgHomedir ← Js.get options "gpg-homedir";
  let args := addCommandLineOption args "gpg-homedir" gpgHomedir in
  subject ← Js.get options "subject";
  let args := addCommandLineOption args "subject" subject in
  body ← Js.get options "body";
  let args := addCommandLineOption args "body" body in
  repoDir ← Js.get options "repo-dir";
  let args := addCommandLineOption args "repo" repoDir in
  let args := addCommandLineOption args "force-clean" (JBool true) in
  let args :=
    if negb finish
    then addCommandLineOption args "build-only" (JBool true)
    else addCommandLineOption args "finish-only" (JBool true) in
  extra ← Js.get options "extra-flatpak-builder-args";
  let _ := Js.Array_concat args extra in
  buildDir ← Js.get options "build-dir";
  let args := Js.Array_push args buildDir in
  manifestPath ← Js.get options "manifest-path";
  let args := Js.Array_push args manifestPath in
  Ok args.

Definition flatpakBuilder (options : JsValue) (finish : bool) : Async W () :=
  args ← settle (flatpakBuilder_args options finish);
  spawnWithLogging options "flatpak-builder" args.

(** The argument list [flatpakBuildBundle] hands to [flatpak]. *)
Definition flatpakBuildBundle_args (options manifest : JsValue)
  : Result (list JsValue) :=
  let args := [JStr "build-bundle"] in
  arch ← Js.get options "arch";
  let args := addCommandLineOption args "arch" arch in
  gpgSign ← Js.get options "gpg-sign";
  let args := addCommandLineOption args "gpg-sign" gpgSign in
  gpgHomedir ← Js.get options "gpg-homedir";
  let args := addCommandLineOption args "gpg-homedir" gpgHomedir in
  repoUrl ← Js.get options "bundle-repo-url";
  let args := addCommandLineOption args "repo-url" repoUrl in
  buildRuntime ← Js.get options "build-runtime";
  let args :=
    if Js.truthy buildRuntime
    then addCommandLineOption args "runtime" (JBool true)
    else args in
  extra ← Js.get options "extra-flatpak-build-bundle-args";
  let _ := Js.Array_concat args extra in
  repoDir ← Js.get options "repo-dir";
  let args := Js.Array_push args repoDir in
  bundlePath ← Js.get options "bundle-path";
  let args := Js.Array_push args bundlePath in
  id ← Js.get manifest "id";
  let args := Js.Array_push args id in
  branch ← Js.get manifest "branch";
  let args := Js.Array_push args branch in
  Ok args.

Definition flatpakBuildBundle (options manifest : JsValue) : Async W () :=
  bundlePath ← settle (Js.get options "bundle-path");
  if negb (Js.truthy bundlePath) then mret ()
  else
    args ← settle (flatpakBuildBundle_args options manifest);
    dir ← settle (path ← Path.assertPath bundlePath; Ok (Path.dirname path));
    mkdirs (JStr dir);;
    spawnWithLogging options "flatpak" args.

(** The stages chained after the options and the manifest are final. *)
Definition stages (options manifest : JsValue) : list (Async W ()) :=
  [ writeJsonFile options manifest;
    flatpakBuilder options false;
    copyFiles options manifest;
    createSymlinks options manifest;
    flatpakBuilder options true;
    flatpakBuildBundle options manifest ].

(** The promise chain of [bundle], up to the two handlers that call
    [callback]: it is fulfilled with the final options and manifest. *)
Definition pipeline (manifest options : JsValue) (working : Async W JsValue)
  : Async W (JsValue * JsValue) :=
  options ← working;
  options ← settle (getOptionsWithDefaults options);
  manifest ← settle (getManifestWithDefaults manifest);
  then_chain (stages options manifest);;
  mret (options, manifest).

(** How a call of [bundle] ends. *)
Inductive Completion : Type :=
| Returned            (* a promise was returned; the trace ends with the callback *)
| Thrown (e : JsError) (* the call itself threw: no promise, no callback *).

(** [exports.bundle]: [callback(null, options, manifest)] on fulfilment,
    [callback(error)] on rejection. *)
Definition bundle (manifest options : JsValue) (w : W)
  : Completion * W * list Event :=
  let manifest := kebabify manifest in
  let options := kebabify options in
  match ensureWorkingDir options with
  | Throw e => (Thrown e, w, [])
  | Ok working =>
      let '(outcome, w1, t1) := pipeline manifest options working w in
      (Returned, w1, t1 ++ [EvCallback outcome])
  end.

End Bundler.

(** ** A reference environment

    A file system of regular files, directories and symbolic links
    under normalised absolute paths, with the calls as fs-extra documents
    them: [mkdirs] creates a directory and its missing ancestors;
    [copy] writes a regular source file at the destination path itself
    and refuses a destination that is a directory, and copies the
    entries below a source directory to the same places below the
    destination; [symlink] refuses an existing destination.  Links are
    not followed.  Child processes end as the world's script says, one
    entry per process, and leave the file system as it is. *)

Module NodeFs.

Inductive Node : Type :=
| File (data : JsValue)
| Dir
| Link (target : string).

Record World : Type := {
  nodes : gmap (list string) Node;
  next_tmp : nat;
  script : list SpawnResult
}.

Definition with_nodes (w : World) (m : gmap (list string) Node) : World :=
  {| nodes := m; next_tmp := next_tmp w; script := script w |}.

(** The components of the absolute form of [p]. *)
Definition segments (cwd p : string) : list string :=
  match Path.resolve cwd [JStr p] with
  | Ok q => filter (λ s, s ≠ "") (Path.split q)
  | Throw _ => []
  end.

Definition is_dir (m : gmap (list string) Node) (p : list string) : bool :=
  match p, m !! p with
  | [], _ => true
  | _, Some Dir => true
  | _, _ => false
  end.

Definition parent (p : list string) : list string := removelast p.

(** Create the directories [done ++ [s1]], [done ++ [s1; s2]], ... *)
Fixpoint mkdirs_from (done todo : list string) (m : gmap (list string) Node)
  : Result (gmap (list string) Node) :=
  match todo with
  | [] => Ok m
  | s :: todo =>
      let p := done ++ [s] in
      match m !! p with
      | None => mkdirs_from p todo (<[p := Dir]> m)
      | Some Dir => mkdirs_from p todo m
      | Some _ => Throw (SystemError "ENOTDIR")
      end
  end.

Definition put_file (m : gmap (list string) Node) (p : list string) (n : Node)
  : Result (gmap (list string) Node) :=
  if is_dir m p then Throw (SystemError "EISDIR")
  else if negb (is_dir m (parent p)) then Throw (SystemError "ENOENT")
  else Ok (<[p := n]> m).

Fixpoint strip_prefix (pre p : list string) : option (list string) :=
  match pre, p with
  | [], _ => Some p
  | a :: pre, b :: p => if String.eqb a b then strip_prefix pre p else None
  | _ :: _, [] => None
  end.

(** Copy one entry found below the source directory. *)
Definition copy_entry (src dest : list string)
    (acc : Result (gmap (list string) Node)) (entry : list string * Node)
  : Result (gmap (list string) Node) :=
  m ← acc;
  match strip_prefix src entry.1 with
  | None | Some [] => Ok m
  | Some rel =>
      match entry.2 with
      | Dir => mkdirs_from [] (dest ++ rel) m
      | n =>
          m ← mkdirs_from [] (parent (dest ++ rel)) m;
          put_file m (dest ++ rel) n
      end
  end.

Definition copy_nodes (src dest : list string) (m : gmap (list string) Node)
  : Result (gmap (list string) Node) :=
  if bool_decide (src = dest) then
    Throw (Error "Source and destination must not be the same.")
  else
    match m !! src with
    | None => Throw (SystemError "ENOENT")
    | Some Dir =>
        if bool_decide (is_Some (strip_prefix src dest)) then
          Throw (Error "Cannot copy a directory into itself.")
        else
          m1 ← mkdirs_from [] dest m;
          foldl (copy_entry src dest) (Ok m1) (map_to_list m)
    | Some n =>
        m1 ← mkdirs_from [] (parent dest) m;
        put_file m1 dest n
    end.

Definition make_link (m : gmap (list string) Node) (p : list string)
    (target : string) : Result (gmap (list string) Node) :=
  match m !! p with
  | Some _ => Throw (SystemError "EEXIST")
  | None =>
      if is_dir m (parent p) then Ok (<[p := Link target]> m)
      else Throw (SystemError "ENOENT")
  end.

(** An operation on the nodes, as a call on the world. *)
Definition update (w : World) (r : Result (gmap (list string) Node))
  : Result () * World :=
  match r with
  | Ok m => (Ok (), with_nodes w m)
  | Throw e => (Throw e, w)
  end.

Definition on_path (v : JsValue) (f : string → Result () * World) (w : World)
  : Result () * World :=
  match v with
  | JStr p => f p
  | _ => (Throw (TypeError "path must be a string"), w)
  end.

Definition tmp_name (n : nat) : string := "/var/tmp/tmp-" +:+ pretty n.

#[global] Instance sys (cwd : string) : Sys World := {
  sys_tmpdir w :=
    let name := tmp_name (next_tmp w) in
    let w := {| nodes := nodes w; next_tmp := S (next_tmp w);
                script := script w |} in
    match mkdirs_from [] (segments cwd name) (nodes w) with
    | Ok m => (Ok name, with_nodes w m)
    | Throw e => (Throw e, w)
    end;
  sys_mkdirs dir w :=
    on_path dir
      (λ p, update w (mkdirs_from [] (segments cwd p) (nodes w))) w;
  sys_writeFile file data w :=
    on_path file
      (λ p, update w (put_file (nodes w) (segments cwd p) (File data))) w;
  sys_copy src dest w :=
    update w (copy_nodes (segments cwd src) (segments cwd dest) (nodes w));
  sys_symlink target dest w :=
    update w (make_link (nodes w) (segments cwd dest) target);
  sys_spawn command args dir w :=
    match script w with
    | [] => (Closed (Some 0%Z), w)
    | r :: rest =>
        (r, {| nodes := nodes w; next_tmp := next_tmp w; script := rest |})
    end
}.

(** A world from a listing of its nodes. *)
Definition world (listing : list (list string * Node))
    (script : list SpawnResult) : World :=
  {| nodes := list_to_map listing; next_tmp := 0; script := script |}.

(** The nodes of a world, as a listing. *)
Definition listing (w : World) : list (list string * Node) :=
  map_to_list (nodes w).

End NodeFs.

(** ** The vocabulary of the properties *)

(** The options that hold paths. *)
Definition path_options : list string :=
  ["working-dir"; "build-dir"; "repo-dir"; "manifest-path"; "bundle-path"].

Definition absolute_option (options : JsValue) (key : string) : Prop :=
  ∃ p, Js.prop options key = JStr p ∧ Path.isAbsolute p = true.

(** A path given as a string, or not given. *)
Definition path_or_absent (v : JsValue) : Prop :=
  v = JUndefined ∨ ∃ p, v = JStr p.
(** Every event of a computation, from any world, satisfies [P]. *)
Definition emits {W A} (P : Event → Prop) (p : Async W A) : Prop :=
  ∀ w r w1 t, p w = (r, w1, t) → Forall P t.

(** The calls to the file system. *)
Definition fs_event (ev : Event) : Prop :=
  match ev with
  | EvTmpDir _ | EvMkdirs _ _ | EvWriteFile _ _ _ | EvCopy _ _ _
  | EvSymlink _ _ _ => True
  | _ => False
  end.


(** Events other than the start of a child process. *)
Definition not_spawn (ev : Event) : Prop :=
  match ev with EvSpawn _ _ _ _ => False | _ => True end.


(** The events of preparing the working directory. *)
Definition workspace_event (ev : Event) : Prop :=
  match ev with EvTmpDir _ | EvMkdirs _ _ => True | _ => False end.


(** A pair of strings, as the entries of [files] and [symlinks] are. *)
Definition string_pair (v : JsValue) : Prop :=
  ∃ a b, v = JArr [JStr a; JStr b].
(** ** Sample runs *)

Module Sample.

Definition cwd : string := "/home/u".

(** A home directory with a file [a.txt] and a directory [d] holding a
    file [x]; the child processes end as [script] says. *)
Definition world (script : list SpawnResult) : NodeFs.World :=
  NodeFs.world
    [(["home"], NodeFs.Dir);
     (["home"; "u"], NodeFs.Dir);
     (["home"; "u"; "a.txt"], NodeFs.File (JStr "hello"));
     (["home"; "u"; "d"], NodeFs.Dir);
     (["home"; "u"; "d"; "x"], NodeFs.File (JStr "X"))]
    script.

Definition options : JsValue :=
  JObj [("workingDir", JStr "/w"); ("bundlePath", JStr "out/app.flatpak")].

Definition options_without_bundle : JsValue :=
  JObj [("workingDir", JStr "/w")].

Definition manifest : JsValue :=
  JObj [("id", JStr "org.x.App");
        ("files", JArr [JArr [JStr "d"; JStr "sub/"];
                        JArr [JStr "a.txt"; JStr "bin/b.txt"]]);
        ("symlinks", JArr [JArr [JStr "bin/foo"; JStr "foo-link"]])].


(** Two links at the same place: the second cannot be made. *)
Definition manifest_link_twice : JsValue :=
  JObj [("id", JStr "org.x.App");
        ("symlinks", JArr [JArr [JStr "bin/foo"; JStr "foo-link"];
                           JArr [JStr "bin/bar"; JStr "foo-link"]])].

Definition run (manifest options : JsValue) (script : list SpawnResult)
  : Completion * NodeFs.World * list Event :=
  bundle (Sys0 := NodeFs.sys cwd) Kebab.kebabCase cwd manifest options
    (world script).

Definition trace (r : Completion * NodeFs.World * list Event) : list Event :=
  r.2.

Definition node_at (r : Completion * NodeFs.World * list Event)
    (p : list string) : option NodeFs.Node :=
  NodeFs.nodes r.1.2 !! p.

End Sample.
(** Events other than a directory that could not be made. *)
Definition mkdirs_fulfilled (ev : Event) : Prop :=
  match ev with EvMkdirs _ (Throw _) => False | _ => True end.

(** A promise that is rejected only when a directory cannot be made. *)
Definition waits_for_mkdirs_only {W} (p : Async W ()) : Prop :=
  ∀ w r w1 t, p w = (r, w1, t) → r = Ok () ∨ ¬ Forall mkdirs_fulfilled t.

(** ** Vocabulary of the further properties *)

(** An argument that is an option: [--name] or [--name=value]. *)
Definition is_flag (v : JsValue) : Prop :=
  ∃ rest, v = JStr ("--" +:+ rest).

(** The defaults of the manifest that do not depend on the input. *)
Definition manifest_defaults : list (string * JsValue) :=
  [("branch", JStr "master");
   ("sdk", JStr "org.freedesktop.Sdk");
   ("runtime", JStr "org.freedesktop.Platform");
   ("modules", JArr []);
   ("files", JArr []);
   ("symlinks", JArr [])].

(** The paths that default to a name below the working directory. *)
Definition option_defaults : list (string * string) :=
  [("build-dir", "build");
   ("repo-dir", "repo");
   ("manifest-path", "manifest.json")].

(** The options that hold extra arguments. *)
Definition extra_args_options : list string :=
  ["extra-flatpak-builder-args"; "extra-flatpak-build-bundle-args"].

(** The events that stage a file or a link. *)
Definition staging_event (ev : Event) : Prop :=
  match ev with EvCopy _ _ _ | EvSymlink _ _ _ => True | _ => False end.

(** Events other than the staging of a file or a link. *)
Definition not_staging (ev : Event) : Prop :=
  match ev with EvCopy _ _ _ | EvSymlink _ _ _ => False | _ => True end.





(** * Properties *)

(** ** Objects and [_.defaults] *)

Section ObjectFacts.

Import Js.

Lemma is_undefined_true v : is_undefined v = true ↔ v = JUndefined.
Proof. destruct v; simpl; split; congruence. Qed.

Lemma lookup_obj_set_eq kvs k v : lookup_key (obj_set kvs k v) k = Some v.
Proof.
  induction kvs as [|[k0 w] kvs IH]; simpl.
  - by rewrite String.eqb_refl.
  - destruct (String.eqb_spec k0 k) as [->|Hne]; simpl.
    + by rewrite String.eqb_refl.
    + by destruct (String.eqb_spec k0 k).
Qed.

Lemma lookup_obj_set_ne kvs k k' v :
  k ≠ k' → lookup_key (obj_set kvs k v) k' = lookup_key kvs k'.
Proof.
  intros Hne. induction kvs as [|[k0 w] kvs IH]; simpl.
  - by destruct (String.eqb_spec k k').
  - destruct (String.eqb_spec k0 k) as [->|Hk0]; simpl.
    + by destruct (String.eqb_spec k k').
    + by rewrite IH.
Qed.

Lemma prop_obj_set_eq kvs k v : prop (JObj (obj_set kvs k v)) k = v.
Proof. simpl. by rewrite lookup_obj_set_eq. Qed.

Lemma prop_obj_set_ne kvs k k' v :
  k ≠ k' → prop (JObj (obj_set kvs k v)) k' = prop (JObj kvs) k'.
Proof. intros. simpl. by rewrite lookup_obj_set_ne. Qed.

Lemma keys_obj_set kvs k v k' :
  k' ∈ map fst (obj_set kvs k v) ↔ k' = k ∨ k' ∈ map fst kvs.
Proof.
  induction kvs as [|[k0 w] kvs IH]; simpl.
  - set_solver.
  - destruct (String.eqb_spec k0 k) as [->|Hk0]; simpl; set_solver.
Qed.

Lemma lookup_key_Some_keys kvs k v :
  lookup_key kvs k = Some v → k ∈ map fst kvs.
Proof.
  induction kvs as [|[k0 w] kvs IH]; simpl; [done|].
  destruct (String.eqb_spec k0 k) as [->|Hk0]; set_solver.
Qed.

Lemma lookup_key_None_keys kvs k :
  lookup_key kvs k = None ↔ k ∉ map fst kvs.
Proof.
  induction kvs as [|[k0 w] kvs IH]; simpl; [set_solver|].
  destruct (String.eqb_spec k0 k) as [->|Hk0]; set_solver.
Qed.

(** A defined property of an object is one of its keys. *)
Lemma prop_defined_has_key kvs k :
  prop (JObj kvs) k ≠ JUndefined → k ∈ Object_keys (JObj kvs).
Proof.
  unfold Object_keys. simpl. destruct (lookup_key kvs k) eqn:E; [|done].
  intros _. by eapply lookup_key_Some_keys.
Qed.

Lemma has_key_false_prop kvs k :
  has_key (JObj kvs) k = false → prop (JObj kvs) k = JUndefined.
Proof.
  unfold has_key, Object_keys. simpl. intros H%bool_decide_eq_false.
  apply lookup_key_None_keys in H. by rewrite H.
Qed.

(** What [_.defaults] reads back after one source, for the keys [ks] of
    that source. *)
Lemma prop_fold_assign source ks object k :
  prop (JObj (fold_left (assign_default source) ks object)) k =
  if is_undefined (prop (JObj object) k) && bool_decide (k ∈ ks)
  then prop source k
  else prop (JObj object) k.
Proof.
  revert object. induction ks as [|k0 ks IH]; intros object.
  - cbn [fold_left]. rewrite bool_decide_eq_false_2 by set_solver.
    by rewrite andb_false_r.
  - cbn [fold_left]. rewrite IH. unfold assign_default.
    destruct (is_undefined (prop (JObj object) k0)) eqn:E0.
    + destruct (decide (k0 = k)) as [->|Hne].
      * rewrite prop_obj_set_eq, E0.
        rewrite (bool_decide_eq_true_2 (k ∈ k :: ks)) by set_solver.
        cbn [andb]. by destruct (_ && _).
      * rewrite prop_obj_set_ne by done.
        by rewrite (bool_decide_ext (k ∈ ks) (k ∈ k0 :: ks)) by set_solver.
    + destruct (decide (k0 = k)) as [->|Hne].
      * by rewrite E0.
      * by rewrite (bool_decide_ext (k ∈ ks) (k ∈ k0 :: ks)) by set_solver.
Qed.

Lemma prop_defaults_from object source k :
  prop (JObj (defaults_from object source)) k =
  if is_undefined (prop (JObj object) k)
     && bool_decide (k ∈ Object_keys source)
  then prop source k
  else prop (JObj object) k.
Proof. apply prop_fold_assign. Qed.

Lemma keys_fold_assign source ks object k :
  k ∈ map fst (fold_left (assign_default source) ks object) →
  k ∈ map fst object ∨ k ∈ ks.
Proof.
  revert object. induction ks as [|k0 ks IH]; intros object; cbn [fold_left].
  - auto.
  - intros [H|H]%IH; [|set_solver]. unfold assign_default in H.
    destruct (is_undefined _); [|auto].
    apply keys_obj_set in H. set_solver.
Qed.

Lemma keys_defaults_from object source k :
  k ∈ Object_keys (JObj (defaults_from object source)) →
  k ∈ Object_keys (JObj object) ∨ k ∈ Object_keys source.
Proof. apply keys_fold_assign. Qed.

(** [_.defaults({}, a, b)]: the value of [a] if it is defined, and the
    value of [b] otherwise. *)
Lemma prop_defaults2 (a b : list (string * JsValue)) k :
  prop (defaults [] [JObj a; JObj b]) k =
  if is_undefined (prop (JObj a) k) then prop (JObj b) k else prop (JObj a) k.
Proof.
  unfold defaults. cbn [fold_left]. rewrite !prop_defaults_from.
  change (prop (JObj []) k) with JUndefined. cbn [is_undefined andb].
  destruct (bool_decide (k ∈ Object_keys (JObj a))) eqn:Ea.
  - destruct (is_undefined (prop (JObj a) k)) eqn:Eu; cbn [andb]; [|done].
    apply is_undefined_true in Eu. rewrite Eu.
    destruct (bool_decide (k ∈ Object_keys (JObj b))) eqn:Eb; [done|].
    symmetry. apply has_key_false_prop. exact Eb.
  - rewrite (has_key_false_prop a k Ea). cbn [is_undefined andb].
    destruct (bool_decide (k ∈ Object_keys (JObj b))) eqn:Eb; [done|].
    symmetry. apply has_key_false_prop. exact Eb.
Qed.

Lemma has_key_defaults2 (a b : list (string * JsValue)) k :
  has_key (JObj a) k = false → has_key (JObj b) k = false →
  has_key (defaults [] [JObj a; JObj b]) k = false.
Proof.
  unfold has_key. intros Ha%bool_decide_eq_false Hb%bool_decide_eq_false.
  apply bool_decide_eq_false. unfold defaults. cbn [fold_left].
  intros [H|H]%keys_defaults_from; [|done].
  apply keys_defaults_from in H as [H|H]; [|done].
  unfold Object_keys in H. simpl in H. set_solver.
Qed.

End ObjectFacts.

(** ** The manifest's defaults *)

Section ManifestDefaults.

Import Js.

Lemma getManifestWithDefaults_object kvs :
  getManifestWithDefaults (JObj kvs) =
  Ok (defaults []
        [JObj kvs;
         JObj (if is_undefined (prop (JObj kvs) "runtime")
               then [("branch", JStr "master");
                     ("sdk", JStr "org.freedesktop.Sdk");
                     ("runtime", JStr "org.freedesktop.Platform");
                     ("modules", JArr []);
                     ("files", JArr []);
                     ("symlinks", JArr []);
                     ("runtime-version", JStr "1.4")]
               else [("branch", JStr "master");
                     ("sdk", JStr "org.freedesktop.Sdk");
                     ("runtime", JStr "org.freedesktop.Platform");
                     ("modules", JArr []);
                     ("files", JArr []);
                     ("symlinks", JArr [])])]).
Proof.
  unfold getManifestWithDefaults. cbn [get mbind Result_bind].
  by destruct (is_undefined (prop (JObj kvs) "runtime")).
Qed.

(** No key of the input is overwritten by a default. *)
Lemma getManifestWithDefaults_keeps kvs k v :
  prop (JObj kvs) k = v → v ≠ JUndefined →
  ∃ defaulted,
    getManifestWithDefaults (JObj kvs) = Ok defaulted ∧ prop defaulted k = v.
Proof.
  intros Hk Hv. rewrite getManifestWithDefaults_object.
  eexists; split; [reflexivity|]. rewrite prop_defaults2, Hk.
  destruct v; done.
Qed.

(** C6, as amended.  For every manifest without a [runtime-version] key
    of its own, the defaulted manifest has [runtime-version] equal to
    ["1.4"] exactly when the input's [runtime] is undefined (absent, in
    particular), and has no [runtime-version] key at all when the input
    supplies [runtime]. *)
Theorem runtime_version_default kvs :
  has_key (JObj kvs) "runtime-version" = false →
  ∃ defaulted,
    getManifestWithDefaults (JObj kvs) = Ok defaulted ∧
    (prop defaulted "runtime-version" = JStr "1.4"
     ↔ prop (JObj kvs) "runtime" = JUndefined) ∧
    (prop (JObj kvs) "runtime" ≠ JUndefined →
     has_key defaulted "runtime-version" = false).
Proof.
  intros Hrv. rewrite getManifestWithDefaults_object.
  eexists; split; [reflexivity|].
  rewrite prop_defaults2, (has_key_false_prop _ _ Hrv).
  cbn [is_undefined].
  destruct (is_undefined (prop (JObj kvs) "runtime")) eqn:E.
  - apply is_undefined_true in E. split; [done|]. by intros [].
  - split.
    + split; [done|]. intros H. by rewrite H in E.
    + intros _. by apply has_key_defaults2.
Qed.

Lemma runtime_version_default_witness :
  ∃ defaulted,
    getManifestWithDefaults (JObj []) = Ok defaulted ∧
    (prop defaulted "runtime-version" = JStr "1.4"
     ↔ prop (JObj []) "runtime" = JUndefined) ∧
    (prop (JObj []) "runtime" ≠ JUndefined →
     has_key defaulted "runtime-version" = false).
Proof. apply (runtime_version_default []). reflexivity. Defined.

(** C6, as stated, fails: a manifest that brings its own
    [runtime-version] and no [runtime] keeps its value, which is not
    ["1.4"]. *)
Lemma runtime_version_default_counterexample :
  ¬ (∀ kvs defaulted,
       getManifestWithDefaults (JObj kvs) = Ok defaulted →
       (prop defaulted "runtime-version" = JStr "1.4"
        ↔ has_key (JObj kvs) "runtime" = false)).
Proof.
  intros H.
  destruct (H [("runtime-version", JStr "1.6")] _ eq_refl) as [_ H1].
  discriminate (H1 eq_refl).
Qed.

(** The two examples of the specification. *)
Example defaults_of_empty_manifest :
  ∃ defaulted,
    getManifestWithDefaults (JObj []) = Ok defaulted ∧
    prop defaulted "runtime-version" = JStr "1.4".
Proof. eexists; split; reflexivity. Qed.

Example defaults_of_manifest_with_runtime :
  ∃ defaulted,
    getManifestWithDefaults (JObj [("runtime", JStr "org.foo.Bar")])
    = Ok defaulted ∧
    has_key defaulted "runtime-version" = false ∧
    prop defaulted "runtime" = JStr "org.foo.Bar".
Proof. eexists; split; [reflexivity|]. split; reflexivity. Qed.

(** C10.  A manifest that supplies a [runtime-version] value and has no
    [runtime] key keeps its [runtime-version]: the default ["1.4"] does
    not replace it. *)
Theorem caller_runtime_version_kept kvs v :
  has_key (JObj kvs) "runtime" = false →
  prop (JObj kvs) "runtime-version" = v →
  v ≠ JUndefined →
  ∃ defaulted,
    getManifestWithDefaults (JObj kvs) = Ok defaulted ∧
    prop defaulted "runtime-version" = v.
Proof. intros _. apply getManifestWithDefaults_keeps. Qed.

Lemma caller_runtime_version_kept_witness :
  ∃ defaulted,
    getManifestWithDefaults (JObj [("runtime-version", JStr "1.6")])
    = Ok defaulted ∧
    prop defaulted "runtime-version" = JStr "1.6".
Proof.
  apply (caller_runtime_version_kept [("runtime-version", JStr "1.6")]).
  - reflexivity.
  - reflexivity.
  - discriminate.
Defined.

End ManifestDefaults.

(** ** The options' paths *)

Lemma bind_Ok_inv {A B} (r : Result A) (f : A → Result B) b :
  r ≫= f = Ok b → ∃ a, r = Ok a ∧ f a = Ok b.
Proof. destruct r as [a|e]; [|done]. intros H. by exists a. Qed.

Lemma Ok_inj {A} (a b : A) : Ok a = Ok b → a = b.
Proof. by intros [= ->]. Qed.

Lemma bind_Throw_l {A B} (f : A → Result B) e : Throw e ≫= f = Throw e.
Proof. done. Qed.

Lemma bind_Ok_l {A B} (f : A → Result B) a : Ok a ≫= f = f a.
Proof. done. Qed.

Section OptionPaths.

Import Js.

Variable cwd : string.
Hypothesis cwd_absolute : Path.isAbsolute cwd = true.

Lemma resolve_string p : ∃ q, Path.resolve cwd [JStr p] = Ok q.
Proof.
  unfold Path.resolve. cbn [rev app Path.resolve_from Path.assertPath].
  rewrite bind_Ok_l.
  destruct (String.eqb p ""); [cbn [Path.resolve_from]|].
  - destruct (String.eqb cwd ""); rewrite bind_Ok_l; eauto.
  - destruct (Path.isAbsolute p); [rewrite bind_Ok_l; eauto|].
    cbn [Path.resolve_from].
    destruct (String.eqb cwd ""); rewrite bind_Ok_l; eauto.
Qed.

Lemma resolve_absolute v q :
  Path.resolve cwd [v] = Ok q → Path.isAbsolute q = true.
Proof.
  assert (Hcwd : String.eqb cwd "" = false).
  { destruct cwd; [done|reflexivity]. }
  unfold Path.resolve. cbn [rev app Path.resolve_from].
  destruct v; try done. cbn [Path.assertPath]. rewrite bind_Ok_l.
  assert (Hfin : ∀ rp,
    (let resolvedPath :=
       String.concat "/" (Path.normalizeArray (Path.split rp) (negb true)) in
     let result := "/" +:+ resolvedPath in
     Ok (if String.eqb result "" then "." else result)) = Ok q →
    Path.isAbsolute q = true).
  { intros rp. cbn. intros [= <-]. reflexivity. }
  destruct (String.eqb s ""); [cbn [Path.resolve_from]|].
  - rewrite Hcwd, cwd_absolute, bind_Ok_l. apply Hfin.
  - destruct (Path.isAbsolute s); [rewrite bind_Ok_l; apply Hfin|].
    cbn [Path.resolve_from]. rewrite Hcwd, cwd_absolute, bind_Ok_l. apply Hfin.
Qed.

Lemma resolve_option_inv kvs key o' :
  resolve_option cwd (JObj kvs) key = Ok o' →
  ∃ q, o' = JObj (obj_set kvs key (JStr q)) ∧ Path.isAbsolute q = true.
Proof.
  unfold resolve_option. cbn [get]. rewrite bind_Ok_l.
  intros (q & Hq & Hset)%bind_Ok_inv. cbn [set] in Hset.
  injection Hset as <-. exists q. split; [done|]. by eapply resolve_absolute.
Qed.

Lemma resolve_option_string kvs key p :
  prop (JObj kvs) key = JStr p →
  ∃ q, resolve_option cwd (JObj kvs) key = Ok (JObj (obj_set kvs key (JStr q))).
Proof.
  intros Hp. unfold resolve_option. cbn [get]. rewrite bind_Ok_l, Hp.
  destruct (resolve_string p) as [q ->]. rewrite bind_Ok_l. cbn [set]. eauto.
Qed.

Lemma absolute_option_set kvs key q :
  Path.isAbsolute q = true →
  absolute_option (JObj (obj_set kvs key (JStr q))) key.
Proof. intros. exists q. by rewrite prop_obj_set_eq. Qed.

Lemma absolute_option_set_ne kvs key key' v :
  key ≠ key' →
  absolute_option (JObj kvs) key' →
  absolute_option (JObj (obj_set kvs key v)) key'.
Proof. intros Hne (p & Hp & Ha). exists p. by rewrite prop_obj_set_ne. Qed.

(** Whenever the options are resolved, the five paths are absolute. *)
Lemma getOptionsWithDefaults_absolute options resolved :
  getOptionsWithDefaults cwd options = Ok resolved →
  ∀ key, key ∈ path_options → absolute_option resolved key.
Proof.
  unfold getOptionsWithDefaults.
  intros (wd & _ & H)%bind_Ok_inv.
  apply bind_Ok_inv in H as (bd & _ & H).
  apply bind_Ok_inv in H as (rd & _ & H).
  apply bind_Ok_inv in H as (mp & _ & H).
  cbv zeta in H. unfold defaults at 1 in H.
  apply bind_Ok_inv in H as (o1 & (q1 & -> & A1)%resolve_option_inv & H).
  apply bind_Ok_inv in H as (o2 & (q2 & -> & A2)%resolve_option_inv & H).
  apply bind_Ok_inv in H as (o3 & (q3 & -> & A3)%resolve_option_inv & H).
  apply bind_Ok_inv in H as (o4 & (q4 & -> & A4)%resolve_option_inv & H).
  apply bind_Ok_inv in H as (o5 & (q5 & -> & A5)%resolve_option_inv & H).
  apply Ok_inj in H. subst resolved.
  intros key Hkey. unfold path_options in Hkey.
  repeat (apply elem_of_cons in Hkey as [->|Hkey]);
    [..|by apply elem_of_nil in Hkey];
    repeat (first [ apply absolute_option_set; assumption
                  | apply absolute_option_set_ne; [discriminate|] ]).
Qed.

End OptionPaths.

Section OptionPathsResolved.

Import Js.

Lemma join_from_strings joined ps :
  ∃ q, Path.join_from joined (map JStr ps) = Ok q.
Proof.
  revert joined. induction ps as [|p ps IH]; intros joined; cbn; [eauto|].
  destruct (String.eqb p ""); [apply IH|].
  destruct (String.eqb joined ""); apply IH.
Qed.

Lemma join_strings ps : ∃ q, Path.join (map JStr ps) = Ok q.
Proof.
  unfold Path.join. destruct (join_from_strings "" ps) as [q ->]. cbn. eauto.
Qed.

(** A default fills a path that is absent, and keeps one that is given. *)
Lemma defaulted_path kvs dflt key d :
  path_or_absent (prop (JObj kvs) key) →
  prop (JObj dflt) key = JStr d →
  ∃ p, prop (defaults [] [JObj kvs; JObj dflt]) key = JStr p.
Proof.
  intros [Hv|[p Hv]] Hd; rewrite prop_defaults2, Hv; cbn [is_undefined]; eauto.
Qed.

(** C8.  With an absolute current directory, for every options object
    whose [working-dir] is a non-empty path and whose [bundle-path] is a
    path, the paths [build-dir], [repo-dir] and [manifest-path] being
    given or absent, the options are resolved and each of the five
    path-valued options is then an absolute path. *)
Theorem resolved_options_absolute cwd kvs wd bp :
  Path.isAbsolute cwd = true →
  prop (JObj kvs) "working-dir" = JStr wd →
  wd ≠ "" →
  path_or_absent (prop (JObj kvs) "build-dir") →
  path_or_absent (prop (JObj kvs) "repo-dir") →
  path_or_absent (prop (JObj kvs) "manifest-path") →
  prop (JObj kvs) "bundle-path" = JStr bp →
  ∃ resolved,
    getOptionsWithDefaults cwd (JObj kvs) = Ok resolved ∧
    ∀ key, key ∈ path_options → absolute_option resolved key.
Proof.
  intros Hcwd Hwd _ Hbd Hrd Hmp Hbp.
  cut (∃ resolved, getOptionsWithDefaults cwd (JObj kvs) = Ok resolved).
  { intros [resolved H]. exists resolved. split; [done|].
    by apply (getOptionsWithDefaults_absolute cwd Hcwd (JObj kvs)). }
  unfold getOptionsWithDefaults. cbn [get]. rewrite bind_Ok_l, Hwd.
  destruct (join_strings [wd; "build"]) as [d1 E]; cbn [map] in E.
  rewrite E, bind_Ok_l; clear E.
  destruct (join_strings [wd; "repo"]) as [d2 E]; cbn [map] in E.
  rewrite E, bind_Ok_l; clear E.
  destruct (join_strings [wd; "manifest.json"]) as [d3 E]; cbn [map] in E.
  rewrite E, bind_Ok_l; clear E.
  cbv zeta.
  match goal with |- context [defaults [] [_; JObj ?l]] => set (dflt := l) end.
  assert (P1 : ∃ p, prop (defaults [] [JObj kvs; JObj dflt]) "working-dir"
                    = JStr p).
  { exists wd. by rewrite prop_defaults2, Hwd. }
  assert (P2 := defaulted_path kvs dflt "build-dir" d1 Hbd eq_refl).
  assert (P3 := defaulted_path kvs dflt "repo-dir" d2 Hrd eq_refl).
  assert (P4 := defaulted_path kvs dflt "manifest-path" d3 Hmp eq_refl).
  assert (P5 : ∃ p, prop (defaults [] [JObj kvs; JObj dflt]) "bundle-path"
                    = JStr p).
  { exists bp. by rewrite prop_defaults2, Hbp. }
  unfold defaults in *.
  match goal with |- context [JObj ?l] => generalize dependent l end.
  intros kvs0 [p1 P1] [p2 P2] [p3 P3] [p4 P4] [p5 P5].
  destruct (resolve_option_string cwd kvs0 _ _ P1) as [q1 ->].
  rewrite bind_Ok_l.
  pose proof (λ k v (H : "working-dir" ≠ k), prop_obj_set_ne kvs0 _ k v H) as S.
  rewrite <- (S "build-dir" (JStr q1)) in P2 by done.
  rewrite <- (S "repo-dir" (JStr q1)) in P3 by done.
  rewrite <- (S "manifest-path" (JStr q1)) in P4 by done.
  rewrite <- (S "bundle-path" (JStr q1)) in P5 by done.
  clear S. destruct (resolve_option_string cwd _ _ _ P2) as [q2 ->].
  rewrite bind_Ok_l.
  match type of P2 with prop (JObj ?l) _ = _ =>
    pose proof (λ k v (H : "build-dir" ≠ k), prop_obj_set_ne l _ k v H) as S
  end.
  rewrite <- (S "repo-dir" (JStr q2)) in P3 by done.
  rewrite <- (S "manifest-path" (JStr q2)) in P4 by done.
  rewrite <- (S "bundle-path" (JStr q2)) in P5 by done.
  clear S. destruct (resolve_option_string cwd _ _ _ P3) as [q3 ->].
  rewrite bind_Ok_l.
  match type of P3 with prop (JObj ?l) _ = _ =>
    pose proof (λ k v (H : "repo-dir" ≠ k), prop_obj_set_ne l _ k v H) as S
  end.
  rewrite <- (S "manifest-path" (JStr q3)) in P4 by done.
  rewrite <- (S "bundle-path" (JStr q3)) in P5 by done.
  clear S. destruct (resolve_option_string cwd _ _ _ P4) as [q4 ->].
  rewrite bind_Ok_l.
  match type of P4 with prop (JObj ?l) _ = _ =>
    pose proof (λ k v (H : "manifest-path" ≠ k), prop_obj_set_ne l _ k v H) as S
  end.
  rewrite <- (S "bundle-path" (JStr q4)) in P5 by done.
  clear S. destruct (resolve_option_string cwd _ _ _ P5) as [q5 ->].
  rewrite bind_Ok_l. eauto.
Qed.

Lemma resolved_options_absolute_witness :
  ∃ resolved,
    getOptionsWithDefaults "/home/u"
      (JObj [("working-dir", JStr "work");
             ("repo-dir", JStr "/srv/repo");
             ("bundle-path", JStr "out/app.flatpak")]) = Ok resolved ∧
    ∀ key, key ∈ path_options → absolute_option resolved key.
Proof.
  apply (resolved_options_absolute "/home/u" _ "work" "out/app.flatpak").
  - reflexivity.
  - reflexivity.
  - discriminate.
  - left. reflexivity.
  - right. exists "/srv/repo". reflexivity.
  - left. reflexivity.
  - reflexivity.
Defined.

Example resolved_options_example :
  getOptionsWithDefaults "/home/u"
    (JObj [("working-dir", JStr "work");
           ("repo-dir", JStr "/srv/repo");
           ("bundle-path", JStr "out/app.flatpak")])
  = Ok (JObj [("working-dir", JStr "/home/u/work");
              ("repo-dir", JStr "/srv/repo");
              ("bundle-path", JStr "/home/u/out/app.flatpak");
              ("build-dir", JStr "/home/u/work/build");
              ("manifest-path", JStr "/home/u/work/manifest.json");
              ("extra-flatpak-builder-args", JArr []);
              ("extra-flatpak-build-bundle-args", JArr [])]).
Proof. vm_compute. reflexivity. Qed.

End OptionPathsResolved.

(** ** Argument lists *)

Section Arguments.

Import Js.

(** C3: the code does not do what the claim says.  The argument lists
    of the builder and of the bundler are the same whatever the options
    give as extra arguments: they are the lists obtained with no extra
    argument at all. *)
Theorem extra_args_never_passed kvs manifest finish extra :
  flatpakBuilder_args
    (JObj (obj_set kvs "extra-flatpak-builder-args" extra)) finish
  = flatpakBuilder_args
      (JObj (obj_set kvs "extra-flatpak-builder-args" (JArr []))) finish
  ∧ flatpakBuildBundle_args
      (JObj (obj_set kvs "extra-flatpak-build-bundle-args" extra)) manifest
    = flatpakBuildBundle_args
        (JObj (obj_set kvs "extra-flatpak-build-bundle-args" (JArr [])))
        manifest.
Proof.
  split.
  - unfold flatpakBuilder_args. cbn [get mbind Result_bind].
    by rewrite !prop_obj_set_ne by done.
  - unfold flatpakBuildBundle_args. cbn [get mbind Result_bind].
    by rewrite !prop_obj_set_ne by done.
Qed.

Example builder_args_with_extra :
  flatpakBuilder_args
    (JObj [("working-dir", JStr "/w");
           ("arch", JStr "x86_64");
           ("extra-flatpak-builder-args", JArr [JStr "--verbose"]);
           ("build-dir", JStr "/w/build");
           ("repo-dir", JStr "/w/repo");
           ("manifest-path", JStr "/w/manifest.json")]) false
  = Ok [JStr "--arch=x86_64"; JStr "--repo=/w/repo"; JStr "--force-clean";
        JStr "--build-only"; JStr "/w/build"; JStr "/w/manifest.json"].
Proof. reflexivity. Qed.

Example bundler_args_with_extra :
  flatpakBuildBundle_args
    (JObj [("working-dir", JStr "/w");
           ("build-runtime", JBool true);
           ("extra-flatpak-build-bundle-args", JArr [JStr "--oci"]);
           ("repo-dir", JStr "/w/repo");
           ("bundle-path", JStr "/out/app.flatpak")])
    (JObj [("id", JStr "org.x.App"); ("branch", JStr "master")])
  = Ok [JStr "build-bundle"; JStr "--runtime"; JStr "/w/repo";
        JStr "/out/app.flatpak"; JStr "org.x.App"; JStr "master"].
Proof. reflexivity. Qed.

(** The rule for one option. *)
Example addCommandLineOption_rule :
  addCommandLineOption [] "name" (JBool true) = [JStr "--name"]
  ∧ addCommandLineOption [] "name" (JStr "x") = [JStr "--name=x"]
  ∧ addCommandLineOption [] "name" (JNum 0) = []
  ∧ addCommandLineOption [] "name" (JStr "") = []
  ∧ addCommandLineOption [] "name" JUndefined = [].
Proof. repeat split. Qed.


End Arguments.

(** ** Promises and their events *)

Section AsyncFacts.

Context {W : Type}.

Lemma bind_inv {A B} (p : Async W A) (f : A → Async W B) w r w2 t :
  (p ≫= f) w = (r, w2, t) →
  (∃ a w1 t1 t2,
      p w = (Ok a, w1, t1) ∧ f a w1 = (r, w2, t2) ∧ t = t1 ++ t2)
  ∨ (∃ e, p w = (Throw e, w2, t) ∧ r = Throw e).
Proof.
  unfold mbind, Async_bind. destruct (p w) as [[[a|e] w1] t1].
  - destruct (f a w1) as [[r' w'] t2] eqn:Ef. intros [= <- <- <-].
    left. by exists a, w1, t1, t2.
  - intros [= <- <- <-]. right. by exists e.
Qed.

Lemma bind_fulfilled {A B} (p : Async W A) (f : A → Async W B) w a w1 t1 :
  p w = (Ok a, w1, t1) →
  (p ≫= f) w = (let '(r, w2, t2) := f a w1 in (r, w2, t1 ++ t2)).
Proof. unfold mbind, Async_bind. by intros ->. Qed.

Lemma bind_rejected {A B} (p : Async W A) (f : A → Async W B) w e w1 t1 :
  p w = (Throw e, w1, t1) → (p ≫= f) w = (Throw e, w1, t1).
Proof. unfold mbind, Async_bind. by intros ->. Qed.

Lemma settle_inv {A} (x : Result A) (w : W) r w1 t :
  settle x w = (r, w1, t) → r = x ∧ w1 = w ∧ t = [].
Proof. by intros [= <- <- <-]. Qed.

Lemma settle_bind_inv {A B} (x : Result A) (f : A → Async W B) w r w2 t :
  (settle x ≫= f) w = (r, w2, t) →
  (∃ a, x = Ok a ∧ f a w = (r, w2, t))
  ∨ (∃ e, x = Throw e ∧ r = Throw e ∧ w2 = w ∧ t = []).
Proof.
  destruct x as [a|e]; unfold mbind, Async_bind, settle.
  - destruct (f a w) as [[r' w'] t'] eqn:E. intros [= <- <- <-]. left.
    by exists a.
  - intros [= <- <- <-]. right. by exists e.
Qed.

Lemma settle_Ok_bind {A B} (a : A) (f : A → Async W B) w :
  (settle (Ok a) ≫= f) w = f a w.
Proof.
  unfold mbind, Async_bind, settle. by destruct (f a w) as [[r w1] t].
Qed.

Lemma settle_Throw_bind {A B} e (f : A → Async W B) w :
  (settle (Throw e) ≫= f) w = (Throw e, w, []).
Proof. done. Qed.

Lemma emits_ret {A} P (a : A) : emits (W:=W) P (mret a).
Proof. intros w r w1 t [= <- <- <-]. constructor. Qed.

Lemma emits_settle {A} P (x : Result A) : emits (W:=W) P (settle x).
Proof. intros w r w1 t [= <- <- <-]. constructor. Qed.

Lemma emits_bind {A B} P (p : Async W A) (f : A → Async W B) :
  emits P p → (∀ a, emits P (f a)) → emits P (p ≫= f).
Proof.
  intros Hp Hf w r w2 t [(a & w1 & t1 & t2 & E1 & E2 & ->)|(e & E1 & _)]%bind_inv.
  - apply Forall_app. split; [by eapply Hp|by eapply Hf].
  - by eapply Hp.
Qed.







(** Where an event that [P] excludes can be. *)
Lemma find_excluded (P : Event → Prop) l1 l2 pre ev post :
  Forall P l1 → ¬ P ev →
  l1 ++ l2 = pre ++ ev :: post →
  ∃ pre2, pre = l1 ++ pre2 ∧ l2 = pre2 ++ ev :: post.
Proof.
  intros Hl1 Hev. revert pre.
  induction Hl1 as [|x l1 Hx _ IH]; intros pre; cbn [app].
  - intros ->. by exists pre.
  - destruct pre as [|y pre]; cbn [app]; intros [= -> E]; [done|].
    apply IH in E as (pre2 & -> & ->). by exists pre2.
Qed.

End AsyncFacts.

(** ** The stages and their events *)

Section StageFacts.

Variable cwd : string.
Context {W : Type} `{!Sys W}.

Lemma emits_tmpdir P : (∀ r, P (EvTmpDir r)) → emits P tmpdir.
Proof.
  intros H w r w1 t. unfold tmpdir. destruct (sys_tmpdir w) as [r0 w0].
  intros [= <- <- <-]. repeat constructor. apply H.
Qed.

Lemma emits_mkdirs P dir : (∀ r, P (EvMkdirs dir r)) → emits P (mkdirs dir).
Proof.
  intros H w r w1 t. unfold mkdirs. destruct (sys_mkdirs dir w) as [r0 w0].
  intros [= <- <- <-]. repeat constructor. apply H.
Qed.

Lemma emits_writeFile P file data :
  (∀ r, P (EvWriteFile file data r)) → emits P (writeFile file data).
Proof.
  intros H w r w1 t. unfold writeFile.
  destruct (sys_writeFile file data w) as [r0 w0].
  intros [= <- <- <-]. repeat constructor. apply H.
Qed.



Lemma mkdirs_inv dir w r w1 t :
  mkdirs dir w = (r, w1, t) →
  sys_mkdirs dir w = (r, w1) ∧ t = [EvMkdirs dir r].
Proof.
  unfold mkdirs. destruct (sys_mkdirs dir w) as [r0 w0]. by intros [= <- <- <-].
Qed.

Lemma spawnWithLogging_inv options command args w r w1 t :
  spawnWithLogging options command args w = (r, w1, t) →
  (∃ e, Js.get options "working-dir" = Throw e ∧ r = Throw e ∧ t = [])
  ∨ (∃ dir sr,
        sys_spawn command args dir w = (sr, w1) ∧
        t = [EvSpawn command args dir sr] ∧
        r = match sr with
            | SpawnError error => Throw error
            | Closed code =>
                if bool_decide (code = Some 0%Z) then Ok ()
                else Throw (exit_error command code)
            end).
Proof.
  unfold spawnWithLogging. destruct (Js.get options "working-dir") as [dir|e].
  - destruct (sys_spawn command args dir w) as [sr w0] eqn:E.
    intros [= <- <- <-]. right. by exists dir, sr.
  - intros [= <- <- <-]. left. by exists e.
Qed.





(** *** Preparing the working directory *)

Lemma ensureWorkingDir_events options working :
  ensureWorkingDir options = Ok working → emits workspace_event working.
Proof.
  unfold ensureWorkingDir. intros (wd & _ & [= <-])%bind_Ok_inv.
  destruct (negb (Js.truthy wd)).
  - apply emits_bind; [by apply emits_tmpdir|]. intros; apply emits_settle.
  - apply emits_bind; [by apply emits_mkdirs|]. intros; apply emits_ret.
Qed.

(** The options the working directory is prepared for differ from the
    given ones in [working-dir] at most. *)
Lemma ensureWorkingDir_options options working w o1 w1 t1 key :
  ensureWorkingDir options = Ok working →
  working w = (Ok o1, w1, t1) →
  key ≠ "working-dir" →
  Js.prop o1 key = Js.prop options key.
Proof.
  unfold ensureWorkingDir. intros (wd & _ & [= <-])%bind_Ok_inv.
  destruct (negb (Js.truthy wd)).
  - intros [(dir & w0 & t0 & t2 & _ & [E _]%settle_inv & _)|(? & _ & ?)]%bind_inv;
      [|done].
    intros Hkey. destruct options; try done; cbn in E; simplify_eq.
    + done.
    + by apply prop_obj_set_ne.
  - intros [(dir & w0 & t0 & t2 & _ & [= <- _ _] & _)|(? & _ & ?)]%bind_inv;
      done.
Qed.

(** *** Writing the manifest, copying files, linking *)

Lemma writeJsonFile_events options manifest :
  emits fs_event (writeJsonFile options manifest).
Proof.
  unfold writeJsonFile. apply emits_bind; [apply emits_settle|].
  intros file. by apply emits_writeFile.
Qed.





(** *** The builder and the bundler *)







(** *** All the stages *)

Lemma fs_event_not_spawn ev : fs_event ev → not_spawn ev.
Proof. by destruct ev. Qed.





End StageFacts.

(** ** The pipeline *)

Section Pipeline.

Variable kebabCase : string → string.
Variable cwd : string.
Context {W : Type} `{!Sys W}.


Lemma pipeline_workspace_rejected manifest options (working : Async W JsValue)
    w e w1 t1 :
  working w = (Throw e, w1, t1) →
  pipeline cwd manifest options working w = (Throw e, w1, t1).
Proof. intros E. unfold pipeline. by rewrite (bind_rejected _ _ _ _ _ _ E). Qed.

Lemma pipeline_options_throw manifest options (working : Async W JsValue)
    w o1 w1 t1 e :
  working w = (Ok o1, w1, t1) →
  getOptionsWithDefaults cwd o1 = Throw e →
  pipeline cwd manifest options working w = (Throw e, w1, t1).
Proof.
  intros E Ho. unfold pipeline. rewrite (bind_fulfilled _ _ _ _ _ _ E), Ho.
  rewrite settle_Throw_bind. by rewrite app_nil_r.
Qed.

Lemma pipeline_manifest_throw manifest options (working : Async W JsValue)
    w o1 w1 t1 o2 e :
  working w = (Ok o1, w1, t1) →
  getOptionsWithDefaults cwd o1 = Ok o2 →
  getManifestWithDefaults manifest = Throw e →
  pipeline cwd manifest options working w = (Throw e, w1, t1).
Proof.
  intros E Ho Hm. unfold pipeline.
  rewrite (bind_fulfilled _ _ _ _ _ _ E), Ho, settle_Ok_bind, Hm.
  rewrite settle_Throw_bind. by rewrite app_nil_r.
Qed.

Lemma pipeline_chain manifest options (working : Async W JsValue)
    w o1 w1 t1 o2 m2 :
  working w = (Ok o1, w1, t1) →
  getOptionsWithDefaults cwd o1 = Ok o2 →
  getManifestWithDefaults manifest = Ok m2 →
  pipeline cwd manifest options working w =
  (let '(r, w2, t2) := then_chain (stages cwd o2 m2) w1 in
   (match r with Ok _ => Ok (o2, m2) | Throw e => Throw e end, w2, t1 ++ t2)).
Proof.
  intros E Ho Hm. unfold pipeline.
  rewrite (bind_fulfilled _ _ _ _ _ _ E), Ho, settle_Ok_bind, Hm.
  rewrite settle_Ok_bind. unfold mbind at 1, Async_bind at 1.
  destruct (then_chain (stages cwd o2 m2) w1) as [[[[]|e] w2] t2].
  - cbn. by rewrite app_nil_r.
  - done.
Qed.


End Pipeline.


(** ** Runs without a bundle path *)

Section NoBundlePath.

Import Js.

Variable kebabCase : string → string.
Variable cwd : string.
Context {W : Type} `{!Sys W}.

Lemma resolve_option_shape kvs key o' :
  resolve_option cwd (JObj kvs) key = Ok o' →
  ∃ q, o' = JObj (obj_set kvs key (JStr q)).
Proof.
  unfold resolve_option. cbn [get]. rewrite bind_Ok_l.
  intros (q & _ & [= <-])%bind_Ok_inv. by exists q.
Qed.

Lemma resolve_undefined : ∃ e, Path.resolve cwd [JUndefined] = Throw e.
Proof. by eexists. Qed.

(** Without a [bundle-path], resolving the options throws: at the
    latest, [path.resolve] is given [undefined]. *)
Lemma getOptionsWithDefaults_without_bundle_path options :
  prop options "bundle-path" = JUndefined →
  ∃ e, getOptionsWithDefaults cwd options = Throw e.
Proof.
  intros Hbp. unfold getOptionsWithDefaults.
  destruct (get options "working-dir") as [wd|e]; [|by eexists].
  rewrite bind_Ok_l.
  destruct (Path.join [wd; JStr "build"]) as [d1|e]; [|by eexists].
  rewrite bind_Ok_l.
  destruct (Path.join [wd; JStr "repo"]) as [d2|e]; [|by eexists].
  rewrite bind_Ok_l.
  destruct (Path.join [wd; JStr "manifest.json"]) as [d3|e]; [|by eexists].
  rewrite bind_Ok_l. cbv zeta.
  match goal with |- context [defaults [] [_; ?d]] => set (dflt := d) end.
  assert (P : prop (defaults [] [options; dflt]) "bundle-path" = JUndefined).
  { unfold defaults. cbn [fold_left]. rewrite !prop_defaults_from.
    change (prop (JObj []) "bundle-path") with JUndefined. rewrite Hbp.
    by destruct (bool_decide _). }
  unfold defaults in *.
  match goal with |- context [JObj ?l] => generalize dependent l end.
  intros kvs0 P.
  destruct (resolve_option cwd (JObj kvs0) "working-dir") as [o1|e] eqn:E1;
    [|by eexists].
  apply resolve_option_shape in E1 as [q1 ->]. rewrite bind_Ok_l.
  rewrite <- (prop_obj_set_ne kvs0 "working-dir" _ (JStr q1)) in P by done.
  match type of P with prop (JObj ?l) _ = _ => generalize dependent l end.
  clear kvs0. intros kvs1 P.
  destruct (resolve_option cwd (JObj kvs1) "build-dir") as [o2|e] eqn:E2;
    [|by eexists].
  apply resolve_option_shape in E2 as [q2 ->]. rewrite bind_Ok_l.
  rewrite <- (prop_obj_set_ne kvs1 "build-dir" _ (JStr q2)) in P by done.
  match type of P with prop (JObj ?l) _ = _ => generalize dependent l end.
  clear kvs1. intros kvs2 P.
  destruct (resolve_option cwd (JObj kvs2) "repo-dir") as [o3|e] eqn:E3;
    [|by eexists].
  apply resolve_option_shape in E3 as [q3 ->]. rewrite bind_Ok_l.
  rewrite <- (prop_obj_set_ne kvs2 "repo-dir" _ (JStr q3)) in P by done.
  match type of P with prop (JObj ?l) _ = _ => generalize dependent l end.
  clear kvs2. intros kvs3 P.
  destruct (resolve_option cwd (JObj kvs3) "manifest-path") as [o4|e] eqn:E4;
    [|by eexists].
  apply resolve_option_shape in E4 as [q4 ->]. rewrite bind_Ok_l.
  rewrite <- (prop_obj_set_ne kvs3 "manifest-path" _ (JStr q4)) in P by done.
  unfold resolve_option at 1. cbn [get]. rewrite bind_Ok_l, P.
  by eexists.
Qed.

(** C1: the code does not do what the claim says.  A run whose options
    have no [bundle-path] never completes successfully: either the call
    throws, or the callback is given an error after events that only
    prepare the working directory; no manifest is written and no
    process, builder or bundler, is started. *)
Theorem run_without_bundle_path_fails manifest options w c w1 t :
  prop (kebabify kebabCase options) "bundle-path" = JUndefined →
  bundle kebabCase cwd manifest options w = (c, w1, t) →
  (∃ e, c = Thrown e ∧ t = [])
  ∨ (∃ e t0,
        c = Returned ∧ t = t0 ++ [EvCallback (Throw e)] ∧
        Forall workspace_event t0).
Proof.
  intros Hbp. unfold bundle.
  destruct (ensureWorkingDir (kebabify kebabCase options))
    as [working|e] eqn:Hw.
  2:{ intros [= <- <- <-]. left. by exists e. }
  destruct (pipeline _ _ _ working w) as [[outcome w'] t'] eqn:Hp.
  intros [= <- <- <-]. right.
  pose proof (ensureWorkingDir_events _ _ Hw) as Hev.
  destruct (working w) as [[[o1|e] w0] t0] eqn:E.
  - destruct (getOptionsWithDefaults_without_bundle_path o1) as [e Ho].
    { rewrite <- Hbp. by eapply ensureWorkingDir_options. }
    rewrite (pipeline_options_throw _ _ _ _ _ _ _ _ _ E Ho) in Hp.
    injection Hp as <- <- <-. exists e, t0. split; [done|]. split; [done|].
    by eapply Hev.
  - rewrite (pipeline_workspace_rejected _ _ _ _ _ _ _ _ E) in Hp.
    injection Hp as <- <- <-. exists e, t0. split; [done|]. split; [done|].
    by eapply Hev.
Qed.

End NoBundlePath.

(** No bundle path, and every call of the environment succeeds: the
    callback is given the error of [path.resolve]. *)
Lemma run_without_bundle_path_fails_witness :
  (∃ e, (Sample.run Sample.manifest Sample.options_without_bundle []).1.1
        = Thrown e ∧
        Sample.trace
          (Sample.run Sample.manifest Sample.options_without_bundle [])
        = [])
  ∨ (∃ e t0,
        (Sample.run Sample.manifest Sample.options_without_bundle []).1.1
        = Returned ∧
        Sample.trace
          (Sample.run Sample.manifest Sample.options_without_bundle [])
        = t0 ++ [EvCallback (Throw e)] ∧
        Forall workspace_event t0).
Proof.
  apply (run_without_bundle_path_fails Kebab.kebabCase Sample.cwd
           (Sys0 := NodeFs.sys Sample.cwd)
           Sample.manifest Sample.options_without_bundle
           (Sample.world [])
           (Sample.run Sample.manifest Sample.options_without_bundle []).1.1
           (Sample.run Sample.manifest Sample.options_without_bundle []).1.2
           (Sample.run Sample.manifest Sample.options_without_bundle []).2).
  - vm_compute. reflexivity.
  - vm_compute. reflexivity.
Defined.

Example no_bundle_path_trace :
  Sample.trace (Sample.run Sample.manifest Sample.options_without_bundle [])
  = [EvMkdirs (JStr "/w") (Ok ());
     EvCallback (Throw (TypeError "Path must be a string"))].
Proof. vm_compute. reflexivity. Qed.

(** ** The bundler's output directory *)

Section BundlerOrder.

Variable kebabCase : string → string.
Variable cwd : string.
Context {W : Type} `{!Sys W}.








End BundlerOrder.


(** ** Symbolic links *)

Section Symlinks.

Import Js.

Context {W : Type} `{!Sys W}.

Lemma get_pair_0 a b : get (JArr [JStr a; JStr b]) "0" = Ok (JStr a).
Proof. vm_compute. reflexivity. Qed.

Lemma get_pair_1 a b : get (JArr [JStr a; JStr b]) "1" = Ok (JStr b).
Proof. vm_compute. reflexivity. Qed.

Lemma get_defined v key x :
  prop v key = x → x ≠ JUndefined → get v key = Ok x.
Proof. intros <- Hx. by destruct v. Qed.

(** The promise of one link settles as its [mkdirs] does. *)
Lemma mkdirs_then_detached dir (p : Async W ()) :
  waits_for_mkdirs_only (mkdirs dir;; detached p).
Proof.
  intros w r w2 t
    [([] & wa & ta & tb & [_ ->]%mkdirs_inv & E & ->)
    |(e & [_ ->]%mkdirs_inv & ->)]%bind_inv.
  - left. unfold detached in E. destruct (p wa) as [[r0 w0] t0].
    by injection E as <- _ _.
  - right. intros H. by inversion H.
Qed.

Lemma createSymlink_pair options bd a b :
  prop options "build-dir" = JStr bd →
  ∃ p, createSymlink options (JArr [JStr a; JStr b]) = Ok p
       ∧ waits_for_mkdirs_only p.
Proof.
  intros Hbd. unfold createSymlink.
  rewrite get_pair_0, bind_Ok_l.
  destruct (join_strings ["/app"; a]) as [target E]; cbn [map] in E.
  rewrite E, bind_Ok_l; clear E.
  rewrite (get_defined _ _ _ Hbd) by done. rewrite bind_Ok_l.
  rewrite get_pair_1, bind_Ok_l.
  destruct (join_strings [bd; "files"; b]) as [dest E]; cbn [map] in E.
  rewrite E, bind_Ok_l; clear E.
  eexists; split; [reflexivity|]. apply mkdirs_then_detached.
Qed.

Lemma all_from_waits rejected (f : JsValue → Result (Async W ())) items
    w r w2 t :
  Forall (λ item, ∃ p, f item = Ok p ∧ waits_for_mkdirs_only p) items →
  all_from rejected f items w = (r, w2, t) →
  Forall mkdirs_fulfilled t →
  r = match rejected with Some e => Throw e | None => Ok () end.
Proof.
  intros Hitems. revert rejected w t.
  induction Hitems as [|item items (p & Hf & Hp) _ IH]; intros rejected w t;
    cbn [all_from].
  - by intros [= <- _ _].
  - rewrite Hf. destruct (p w) as [[r1 w1] t1] eqn:Ep.
    destruct (all_from _ f items w1) as [[r2 w2'] t2] eqn:Ea.
    intros [= <- <- <-] [H1 H2]%Forall_app.
    apply Hp in Ep as [->|Hbad]; [|done].
    rewrite (IH _ _ _ Ea H2). by destruct rejected.
Qed.

(** C4.  For every list of pairs of strings as [symlinks], the promise
    of the symlink phase is fulfilled whenever no directory creation of
    the phase fails, whatever the creations of the links themselves
    give: their errors do not reach the phase's result. *)
Theorem symlink_errors_not_propagated options manifest bd items w r w1 t :
  prop options "build-dir" = JStr bd →
  prop manifest "symlinks" = JArr items →
  Forall string_pair items →
  createSymlinks options manifest w = (r, w1, t) →
  Forall mkdirs_fulfilled t →
  r = Ok ().
Proof.
  intros Hbd Hsym Hitems. unfold createSymlinks.
  rewrite (get_defined _ _ _ Hsym) by done. rewrite bind_Ok_l.
  cbn [Array_of]. rewrite settle_Ok_bind. unfold Promise_all_map.
  intros E Ht. apply (all_from_waits None _ _ _ _ _ _) in E; [done| |done].
  eapply Forall_impl; [exact Hitems|].
  intros item (a & b & ->). by eapply createSymlink_pair.
Qed.

End Symlinks.

(** Two links at the same place: the second one cannot be made, and the
    phase is fulfilled all the same. *)
Lemma symlink_errors_not_propagated_witness :
  (createSymlinks (Sys0 := NodeFs.sys Sample.cwd)
     (JObj [("build-dir", JStr "/w/build")])
     Sample.manifest_link_twice (Sample.world [])).1.1 = Ok ()
  ∧ EvSymlink "/app/bin/bar" "/w/build/files/foo-link"
      (Throw (SystemError "EEXIST"))
    ∈ (createSymlinks (Sys0 := NodeFs.sys Sample.cwd)
         (JObj [("build-dir", JStr "/w/build")])
         Sample.manifest_link_twice (Sample.world [])).2.
Proof.
  split.
  - eapply (symlink_errors_not_propagated (Sys0 := NodeFs.sys Sample.cwd)
              (JObj [("build-dir", JStr "/w/build")])
              Sample.manifest_link_twice "/w/build" _ (Sample.world [])
              _ _ _).
    + reflexivity.
    + reflexivity.
    + repeat constructor; by eexists _, _.
    + vm_compute. reflexivity.
    + repeat constructor.
  - vm_compute. set_solver.
Defined.

(** ** Copying files *)

Section CopyFiles.

Import Js.








Variable cwd : string.
Context {W : Type} `{!Sys W}.


End CopyFiles.



(** A source directory is staged: its entries arrive below the
    destination, as does a file copied to a path of its own. *)
Example directory_into_directory_staged :
  Sample.node_at (Sample.run Sample.manifest Sample.options [])
    ["w"; "build"; "files"; "sub"; "x"] = Some (NodeFs.File (JStr "X"))
  ∧ Sample.node_at (Sample.run Sample.manifest Sample.options [])
      ["w"; "build"; "files"; "bin"; "b.txt"]
    = Some (NodeFs.File (JStr "hello"))
  ∧ Sample.node_at (Sample.run Sample.manifest Sample.options [])
      ["w"; "build"; "files"; "foo-link"]
    = Some (NodeFs.Link "/app/bin/foo").
Proof. repeat split; vm_compute; reflexivity. Qed.

(** ** Normalising keys *)

Section Kebabify.

Import Js.

Variable kebabCase : string → string.

(** On an object, the result is the customizer's: a new object with the
    rewritten keys and the values of the input. *)
Lemma kebabify_object kvs :
  kebabify kebabCase (JObj kvs) =
  JObj (fold_left
          (λ newValue key,
             obj_set newValue (kebabCase key) (prop (JObj kvs) key))
          (map fst kvs) []).
Proof. reflexivity. Qed.

(** Values that are not objects are returned as they are. *)
Lemma kebabify_scalar v :
  typeof_object v = false → kebabify kebabCase v = v.
Proof.
  intros H.
  assert (Hc : kebabify_customizer kebabCase v = v).
  { unfold kebabify_customizer. rewrite H. cbn [negb]. by rewrite orb_true_r. }
  unfold kebabify. destruct v; try done; cbn [cloneDeepWith]; by rewrite Hc.
Qed.

(** C2: the code does not do what the claim says.  Whatever the
    rewriting of keys is, the value under a key of the input is returned
    as it is: the keys inside it are not rewritten and it is not cloned;
    only the outermost keys are rewritten. *)
Theorem kebabify_rewrites_outermost_keys_only key value :
  kebabify kebabCase (JObj [(key, value)]) = JObj [(kebabCase key, value)].
Proof. rewrite kebabify_object. cbn. by rewrite String.eqb_refl. Qed.

End Kebabify.

Example kebabify_nested :
  kebabify Kebab.kebabCase
    (JObj [("outerKey", JObj [("innerKey", JNum 1)])])
  = JObj [("outer-key", JObj [("innerKey", JNum 1)])].
Proof. reflexivity. Qed.

Example kebabify_sequence :
  kebabify Kebab.kebabCase (JArr [JStr "a"; JStr "b"])
  = JObj [("0", JStr "a"); ("1", JStr "b")].
Proof. vm_compute. reflexivity. Qed.

Example kebabify_options :
  kebabify Kebab.kebabCase Sample.options
  = JObj [("working-dir", JStr "/w"); ("bundle-path", JStr "out/app.flatpak")].
Proof. vm_compute. reflexivity. Qed.

(** * Further properties *)

(** ** Key normalisation, on the outermost keys *)

Section KebabifyKeys.

Import Js.

Variable kebabCase : string → string.

(** The object the customizer builds from the keys [ks] of [value]. *)
Lemma kebabify_container value :
  truthy value = true → typeof_object value = true →
  kebabify kebabCase value =
  JObj (fold_left
          (λ newValue key,
             obj_set newValue (kebabCase key) (prop value key))
          (Object_keys value) []).
Proof.
  intros Ht Ho. unfold kebabify.
  assert (Hc : kebabify_customizer kebabCase value =
    JObj (fold_left
            (λ newValue key,
               obj_set newValue (kebabCase key) (prop value key))
            (Object_keys value) [])).
  { unfold kebabify_customizer. by rewrite Ht, Ho. }
  destruct value; try done; cbn [cloneDeepWith]; by rewrite Hc.
Qed.

Lemma find_snoc {A} (f : A → bool) l x :
  find f (l ++ [x]) =
  match find f l with Some y => Some y | None => if f x then Some x else None end.
Proof.
  induction l as [|y l IH]; cbn; [done|]. by destruct (f y).
Qed.

(** Reading the rebuilt object: the last key rewritten to [n] decides. *)
Lemma prop_rebuilt value ks acc n :
  prop (JObj (fold_left
                (λ newValue key,
                   obj_set newValue (kebabCase key) (prop value key))
                ks acc)) n =
  match find (λ key, String.eqb (kebabCase key) n) (rev ks) with
  | Some key => prop value key
  | None => prop (JObj acc) n
  end.
Proof.
  revert acc. induction ks as [|key ks IH]; intros acc; [done|].
  cbn [fold_left rev]. rewrite IH, find_snoc.
  destruct (find _ (rev ks)) as [key'|]; [done|].
  destruct (String.eqb_spec (kebabCase key) n) as [<-|Hne].
  - by rewrite prop_obj_set_eq.
  - by rewrite prop_obj_set_ne.
Qed.

Lemma keys_rebuilt value ks acc n :
  n ∈ map fst (fold_left
                 (λ newValue key,
                    obj_set newValue (kebabCase key) (prop value key))
                 ks acc)
  ↔ n ∈ map fst acc ∨ ∃ key, key ∈ ks ∧ kebabCase key = n.
Proof.
  revert acc. induction ks as [|key ks IH]; intros acc; cbn [fold_left].
  - set_solver.
  - rewrite IH, keys_obj_set. set_solver.
Qed.

Lemma NoDup_obj_set kvs key v :
  NoDup (map fst kvs) → NoDup (map fst (obj_set kvs key v)).
Proof.
  induction kvs as [|[k0 w] kvs IH]; cbn.
  - intros _. apply NoDup_singleton.
  - intros [Hk0 Hnd]%NoDup_cons.
    destruct (String.eqb_spec k0 key) as [->|Hne]; cbn.
    + by apply NoDup_cons.
    + apply NoDup_cons. split; [|by apply IH].
      rewrite keys_obj_set. set_solver.
Qed.

Lemma NoDup_rebuilt value ks acc :
  NoDup (map fst acc) →
  NoDup (map fst (fold_left
                    (λ newValue key,
                       obj_set newValue (kebabCase key) (prop value key))
                    ks acc)).
Proof.
  revert acc. induction ks as [|key ks IH]; intros acc Hacc; [done|].
  cbn [fold_left]. by apply IH, NoDup_obj_set.
Qed.

Lemma obj_set_fresh kvs key v :
  key ∉ map fst kvs → obj_set kvs key v = kvs ++ [(key, v)].
Proof.
  induction kvs as [|[k0 w] kvs IH]; cbn; [done|].
  intros Hk. destruct (String.eqb_spec k0 key) as [->|Hne]; [set_solver|].
  rewrite IH; [done|set_solver].
Qed.

Lemma lookup_key_app_fresh pre kvs key :
  key ∉ map fst pre → lookup_key (pre ++ kvs) key = lookup_key kvs key.
Proof.
  induction pre as [|[k0 w] pre IH]; cbn; [done|].
  intros Hk. destruct (String.eqb_spec k0 key) as [->|Hne]; [set_solver|].
  apply IH. set_solver.
Qed.

(** An object with distinct keys that the rewriting leaves alone is
    rebuilt as it is. *)
Lemma rebuild_fixed pre suf :
  NoDup (map fst (pre ++ suf)) →
  (∀ key, key ∈ map fst suf → kebabCase key = key) →
  fold_left
    (λ newValue key,
       obj_set newValue (kebabCase key) (prop (JObj (pre ++ suf)) key))
    (map fst suf) pre
  = pre ++ suf.
Proof.
  revert pre. induction suf as [|[key v] suf IH]; intros pre Hnd Hfix.
  - cbn. by rewrite app_nil_r.
  - cbn [map fst fold_left].
    assert (Hfresh : key ∉ map fst pre).
    { rewrite map_app in Hnd. apply NoDup_app in Hnd as (_ & Hnd & _).
      intros Hin. apply (Hnd _ Hin). set_solver. }
    rewrite (Hfix key) by set_solver.
    assert (Hv : prop (JObj (pre ++ (key, v) :: suf)) key = v).
    { cbn [prop]. rewrite lookup_key_app_fresh by done. cbn.
      by rewrite String.eqb_refl. }
    rewrite Hv, obj_set_fresh by done.
    rewrite (cons_middle (key, v) pre suf), (assoc_L (++)) in *.
    apply IH; [done|]. intros k Hk. apply Hfix. set_solver.
Qed.

(** X1.  Normalising twice gives what normalising once gives, when the
    rewriting of keys leaves the rewritten keys of the input alone. *)
Theorem kebabify_idempotent value :
  (∀ key, key ∈ Object_keys value →
          kebabCase (kebabCase key) = kebabCase key) →
  kebabify kebabCase (kebabify kebabCase value) = kebabify kebabCase value.
Proof.
  intros Hidem.
  destruct (typeof_object value && truthy value) eqn:E.
  2:{ assert (Hs : kebabify kebabCase value = value).
      { destruct value; try done; by apply kebabify_scalar. }
      by rewrite !Hs. }
  apply andb_true_iff in E as [Ho Ht].
  rewrite (kebabify_container value Ht Ho).
  set (R := fold_left _ (Object_keys value) []).
  rewrite (kebabify_container (JObj R)) by done.
  f_equal. apply (rebuild_fixed [] R).
  - apply NoDup_rebuilt. constructor.
  - intros n [Hn|(key & Hkey & <-)]%keys_rebuilt; [by inversion Hn|].
    by apply Hidem.
Qed.


(** X3.  The keys of the normalised object are the rewritten keys of the
    input, each of them once. *)
Theorem kebabify_keys kvs :
  NoDup (Object_keys (kebabify kebabCase (JObj kvs)))
  ∧ ∀ n, n ∈ Object_keys (kebabify kebabCase (JObj kvs))
         ↔ ∃ key, key ∈ Object_keys (JObj kvs) ∧ kebabCase key = n.
Proof.
  rewrite kebabify_container by done. unfold Object_keys at 1 3. cbn [entries].
  split.
  - apply NoDup_rebuilt. constructor.
  - intros n. rewrite keys_rebuilt. set_solver.
Qed.

(** X4.  A key that no other key of the input is rewritten like keeps
    its value, under its rewritten name. *)
Theorem kebabify_keeps_value kvs key :
  key ∈ Object_keys (JObj kvs) →
  (∀ key', key' ∈ Object_keys (JObj kvs) →
           kebabCase key' = kebabCase key → key' = key) →
  prop (kebabify kebabCase (JObj kvs)) (kebabCase key) = prop (JObj kvs) key.
Proof.
  intros Hkey Hinj. rewrite kebabify_container by done. rewrite prop_rebuilt.
  unfold Object_keys in *. cbn [entries] in *.
  destruct (find _ (rev (map fst kvs))) as [key'|] eqn:E.
  - apply find_some in E as [Hin Heq%String.eqb_eq].
    rewrite (Hinj key'); [done| |done].
    apply list_elem_of_In. by apply in_rev.
  - pose proof (find_none _ _ E key) as Hnone. cbn beta in Hnone.
    rewrite String.eqb_refl in Hnone. discriminate Hnone.
    apply in_rev. rewrite rev_involutive. by apply list_elem_of_In.
Qed.

End KebabifyKeys.

Lemma kebabify_idempotent_witness :
  kebabify Kebab.kebabCase (kebabify Kebab.kebabCase Sample.options)
  = kebabify Kebab.kebabCase Sample.options.
Proof.
  apply (kebabify_idempotent Kebab.kebabCase Sample.options).
  intros key Hkey. vm_compute in Hkey.
  repeat (apply elem_of_cons in Hkey as [->|Hkey]); [reflexivity..|].
  by apply elem_of_nil in Hkey.
Defined.

Lemma kebabify_keeps_value_witness :
  Js.prop (kebabify Kebab.kebabCase Sample.options)
    (Kebab.kebabCase "bundlePath")
  = Js.prop Sample.options "bundlePath".
Proof.
  apply (kebabify_keeps_value Kebab.kebabCase).
  - vm_compute. set_solver.
  - intros key' Hkey'. vm_compute in Hkey'.
    repeat (apply elem_of_cons in Hkey' as [->|Hkey']).
    + vm_compute. discriminate.
    + reflexivity.
    + by apply elem_of_nil in Hkey'.
Defined.

(** ** The argument lists of the builder and of the bundler *)

Section ArgumentShape.

Import Js.

Lemma get_Ok v key :
  v ≠ JUndefined → v ≠ JNull → get v key = Ok (prop v key).
Proof. by destruct v. Qed.

Lemma addCommandLineOption_flags args name value :
  Forall is_flag args → Forall is_flag (addCommandLineOption args name value).
Proof.
  intros Hargs. unfold addCommandLineOption, Array_push.
  destruct (negb (truthy value)); [done|].
  destruct (is_true value); apply Forall_app; split; try done;
    repeat constructor; by eexists.
Qed.

(** X5.  For options that are an object, the arguments of the builder
    are options of the form [--name] or [--name=value], the same in both
    passes, followed by [--force-clean], the flag of the pass, the build
    directory and the path of the manifest, in this order. *)
Theorem flatpakBuilder_args_shape options :
  options ≠ JUndefined → options ≠ JNull →
  ∃ flags,
    Forall is_flag flags ∧
    ∀ finish,
      flatpakBuilder_args options finish
      = Ok (flags ++
            [JStr "--force-clean";
             JStr (if finish then "--finish-only" else "--build-only");
             prop options "build-dir";
             prop options "manifest-path"]).
Proof.
  intros Hu Hn.
  exists (addCommandLineOption
            (addCommandLineOption
               (addCommandLineOption
                  (addCommandLineOption
                     (addCommandLineOption
                        (addCommandLineOption [] "arch" (prop options "arch"))
                        "gpg-sign" (prop options "gpg-sign"))
                     "gpg-homedir" (prop options "gpg-homedir"))
                  "subject" (prop options "subject"))
               "body" (prop options "body"))
            "repo" (prop options "repo-dir")).
  split.
  - repeat apply addCommandLineOption_flags. constructor.
  - intros finish. unfold flatpakBuilder_args.
    rewrite !(get_Ok options) by done. cbn [mbind Result_bind].
    unfold Array_push.
    change (addCommandLineOption ?a "force-clean" (JBool true))
      with (a ++ [JStr "--force-clean"]).
    destruct finish; cbn [negb].
    + change (addCommandLineOption ?a "finish-only" (JBool true))
        with (a ++ [JStr "--finish-only"]).
      by rewrite <- !(assoc_L (++)).
    + change (addCommandLineOption ?a "build-only" (JBool true))
        with (a ++ [JStr "--build-only"]).
      by rewrite <- !(assoc_L (++)).
Qed.

(** X6.  For options and a manifest that are objects, the arguments of
    the bundler are [build-bundle], then options of the form [--name] or
    [--name=value], then the repository directory, the bundle path and
    the manifest's [id] and [branch], in this order. *)
Theorem flatpakBuildBundle_args_shape options manifest :
  options ≠ JUndefined → options ≠ JNull →
  manifest ≠ JUndefined → manifest ≠ JNull →
  ∃ flags,
    Forall is_flag flags ∧
    flatpakBuildBundle_args options manifest
    = Ok (JStr "build-bundle" :: flags ++
          [prop options "repo-dir"; prop options "bundle-path";
           prop manifest "id"; prop manifest "branch"]).
Proof.
  intros Hu Hn Hmu Hmn. unfold flatpakBuildBundle_args.
  rewrite !(get_Ok options), !(get_Ok manifest) by done.
  cbn [mbind Result_bind]. unfold Array_push.
  match goal with
  | |- context [((((?a ++ _) ++ _) ++ _) ++ _)] => set (front := a)
  end.
  assert (Hfront : ∃ flags, front = JStr "build-bundle" :: flags
                            ∧ Forall is_flag flags).
  { subst front.
    assert (Hstep : ∀ args name value,
      (∃ flags, args = JStr "build-bundle" :: flags ∧ Forall is_flag flags) →
      ∃ flags, addCommandLineOption args name value
               = JStr "build-bundle" :: flags ∧ Forall is_flag flags).
    { intros args name value (flags & -> & Hflags).
      exists (addCommandLineOption flags name value). split.
      - unfold addCommandLineOption, Array_push.
        destruct (negb (truthy value)); [done|]. by destruct (is_true value).
      - by apply addCommandLineOption_flags. }
    destruct (truthy (prop options "build-runtime"));
      repeat apply Hstep; by exists []. }
  destruct Hfront as (flags & -> & Hflags). exists flags. split; [done|].
  cbn [app]. by rewrite <- !(assoc_L (++)).
Qed.

End ArgumentShape.

Lemma flatpakBuilder_args_shape_witness :
  ∃ flags,
    Forall is_flag flags ∧
    ∀ finish,
      flatpakBuilder_args
        (JObj [("arch", JStr "x86_64"); ("build-dir", JStr "/w/build");
               ("manifest-path", JStr "/w/manifest.json")]) finish
      = Ok (flags ++
            [JStr "--force-clean";
             JStr (if finish then "--finish-only" else "--build-only");
             JStr "/w/build"; JStr "/w/manifest.json"]).
Proof.
  apply (flatpakBuilder_args_shape
           (JObj [("arch", JStr "x86_64"); ("build-dir", JStr "/w/build");
                  ("manifest-path", JStr "/w/manifest.json")])).
  - discriminate.
  - discriminate.
Defined.

Lemma flatpakBuildBundle_args_shape_witness :
  ∃ flags,
    Forall is_flag flags ∧
    flatpakBuildBundle_args
      (JObj [("build-runtime", JBool true); ("repo-dir", JStr "/w/repo");
             ("bundle-path", JStr "/out/app.flatpak")])
      (JObj [("id", JStr "org.x.App"); ("branch", JStr "master")])
    = Ok (JStr "build-bundle" :: flags ++
          [JStr "/w/repo"; JStr "/out/app.flatpak";
           JStr "org.x.App"; JStr "master"]).
Proof.
  apply (flatpakBuildBundle_args_shape
           (JObj [("build-runtime", JBool true); ("repo-dir", JStr "/w/repo");
                  ("bundle-path", JStr "/out/app.flatpak")])
           (JObj [("id", JStr "org.x.App"); ("branch", JStr "master")]));
    discriminate.
Defined.

(** ** The defaults of the manifest, key by key *)

Section ManifestDefaultsAll.

Import Js.

(** X7.  For a manifest that is an object, defaulting returns an object
    in which every key the input defines has the input's value, each of
    [branch], [sdk], [runtime], [modules], [files] and [symlinks] that
    the input leaves undefined has its default, and every other key the
    input leaves undefined, [runtime-version] apart, is undefined. *)
Theorem manifest_defaults_fill kvs :
  ∃ defaulted,
    getManifestWithDefaults (JObj kvs) = Ok defaulted ∧
    (∀ key v,
       prop (JObj kvs) key = v → v ≠ JUndefined → prop defaulted key = v) ∧
    (∀ key dv,
       (key, dv) ∈ manifest_defaults →
       prop (JObj kvs) key = JUndefined → prop defaulted key = dv) ∧
    (∀ key,
       prop (JObj kvs) key = JUndefined →
       key ∉ "runtime-version" :: map fst manifest_defaults →
       prop defaulted key = JUndefined).
Proof.
  rewrite getManifestWithDefaults_object. eexists; split; [reflexivity|].
  split; [|split].
  - intros key v Hk Hv. rewrite prop_defaults2, Hk. by destruct v.
  - intros key dv Hin Hk. rewrite prop_defaults2, Hk. cbn [is_undefined].
    unfold manifest_defaults in Hin.
    repeat (apply elem_of_cons in Hin as [[= -> ->]|Hin]);
      try (by destruct (is_undefined (prop (JObj kvs) "runtime"))).
    by apply elem_of_nil in Hin.
  - intros key Hk Hnot. rewrite prop_defaults2, Hk. cbn [is_undefined].
    apply has_key_false_prop. unfold has_key.
    apply bool_decide_eq_false. intros Hin. apply Hnot.
    destruct (is_undefined (prop (JObj kvs) "runtime"));
      unfold Object_keys in Hin; cbn in Hin; set_solver.
Qed.

End ManifestDefaultsAll.

(** ** The resolved options, key by key *)

Section OptionValues.

Import Js.

Variable cwd : string.

Lemma resolve_option_run kvs key o' :
  resolve_option cwd (JObj kvs) key = Ok o' →
  ∃ q, Path.resolve cwd [prop (JObj kvs) key] = Ok q
       ∧ o' = JObj (obj_set kvs key (JStr q)).
Proof.
  unfold resolve_option. cbn [get]. rewrite bind_Ok_l.
  intros (q & Hq & [= <-])%bind_Ok_inv. by exists q.
Qed.

Lemma resolve_Ok_string v q : Path.resolve cwd [v] = Ok q → ∃ p, v = JStr p.
Proof. destruct v; try done. by eexists. Qed.

Lemma join_Ok_string v name j :
  Path.join [v; JStr name] = Ok j → ∃ p, v = JStr p.
Proof. destruct v; try done. by eexists. Qed.

(** The defaults that [getOptionsWithDefaults] merges in. *)
Lemma getOptionsWithDefaults_run options resolved :
  getOptionsWithDefaults cwd options = Ok resolved →
  ∃ wd b r m kvs0 q1 q2 q3 q4 q5,
    get options "working-dir" = Ok wd ∧
    Path.join [wd; JStr "build"] = Ok b ∧
    Path.join [wd; JStr "repo"] = Ok r ∧
    Path.join [wd; JStr "manifest.json"] = Ok m ∧
    defaults [] [options;
                 JObj [("build-dir", JStr b); ("repo-dir", JStr r);
                       ("manifest-path", JStr m);
                       ("extra-flatpak-builder-args", JArr []);
                       ("extra-flatpak-build-bundle-args", JArr [])]]
    = JObj kvs0 ∧
    Path.resolve cwd [prop (JObj kvs0) "working-dir"] = Ok q1 ∧
    Path.resolve cwd [prop (JObj kvs0) "build-dir"] = Ok q2 ∧
    Path.resolve cwd [prop (JObj kvs0) "repo-dir"] = Ok q3 ∧
    Path.resolve cwd [prop (JObj kvs0) "manifest-path"] = Ok q4 ∧
    Path.resolve cwd [prop (JObj kvs0) "bundle-path"] = Ok q5 ∧
    resolved =
    JObj (obj_set
            (obj_set
               (obj_set
                  (obj_set (obj_set kvs0 "working-dir" (JStr q1))
                     "build-dir" (JStr q2))
                  "repo-dir" (JStr q3))
               "manifest-path" (JStr q4))
            "bundle-path" (JStr q5)).
Proof.
  unfold getOptionsWithDefaults.
  intros (wd & Hwd & H)%bind_Ok_inv.
  apply bind_Ok_inv in H as (b & Hb & H).
  apply bind_Ok_inv in H as (r & Hr & H).
  apply bind_Ok_inv in H as (m & Hm & H).
  cbv zeta in H. unfold defaults at 1 in H.
  match type of H with context [JObj ?l] => set (kvs0 := l) in * end.
  apply bind_Ok_inv in H as (o1 & (q1 & H1 & ->)%resolve_option_run & H).
  apply bind_Ok_inv in H as (o2 & (q2 & H2 & ->)%resolve_option_run & H).
  apply bind_Ok_inv in H as (o3 & (q3 & H3 & ->)%resolve_option_run & H).
  apply bind_Ok_inv in H as (o4 & (q4 & H4 & ->)%resolve_option_run & H).
  apply bind_Ok_inv in H as (o5 & (q5 & H5 & ->)%resolve_option_run & H).
  apply Ok_inj in H. subst resolved.
  rewrite !prop_obj_set_ne in H2 by done.
  rewrite !prop_obj_set_ne in H3 by done.
  rewrite !prop_obj_set_ne in H4 by done.
  rewrite !prop_obj_set_ne in H5 by done.
  exists wd, b, r, m, kvs0, q1, q2, q3, q4, q5. repeat split; done.
Qed.

Lemma getOptionsWithDefaults_build wd b r m kvs0 q1 q2 q3 q4 q5 options :
  get options "working-dir" = Ok wd →
  Path.join [wd; JStr "build"] = Ok b →
  Path.join [wd; JStr "repo"] = Ok r →
  Path.join [wd; JStr "manifest.json"] = Ok m →
  defaults [] [options;
               JObj [("build-dir", JStr b); ("repo-dir", JStr r);
                     ("manifest-path", JStr m);
                     ("extra-flatpak-builder-args", JArr []);
                     ("extra-flatpak-build-bundle-args", JArr [])]]
  = JObj kvs0 →
  Path.resolve cwd [prop (JObj kvs0) "working-dir"] = Ok q1 →
  Path.resolve cwd [prop (JObj kvs0) "build-dir"] = Ok q2 →
  Path.resolve cwd [prop (JObj kvs0) "repo-dir"] = Ok q3 →
  Path.resolve cwd [prop (JObj kvs0) "manifest-path"] = Ok q4 →
  Path.resolve cwd [prop (JObj kvs0) "bundle-path"] = Ok q5 →
  ∃ resolved, getOptionsWithDefaults cwd options = Ok resolved.
Proof.
  intros Hwd Hb Hr Hm Hd H1 H2 H3 H4 H5. unfold getOptionsWithDefaults.
  rewrite Hwd, bind_Ok_l, Hb, bind_Ok_l, Hr, bind_Ok_l, Hm, bind_Ok_l.
  cbv zeta. rewrite Hd. unfold resolve_option. cbn [get set].
  rewrite bind_Ok_l, H1. cbn [mbind Result_bind get set].
  rewrite prop_obj_set_ne, H2 by done. cbn [mbind Result_bind get set].
  rewrite !prop_obj_set_ne, H3 by done. cbn [mbind Result_bind get set].
  rewrite !prop_obj_set_ne, H4 by done. cbn [mbind Result_bind get set].
  rewrite !prop_obj_set_ne, H5 by done. cbn [mbind Result_bind get set].
  eauto.
Qed.

(** X8.  When the options, an object, are resolved: an option that is
    not one of the five paths keeps the value the input gives it; a path
    the input gives is resolved against the current directory; a path
    among [build-dir], [repo-dir] and [manifest-path] that the input
    does not give is its default name joined to the working directory
    and resolved; the lists of extra arguments default to the empty
    list. *)
Theorem resolved_option_values kvs resolved :
  getOptionsWithDefaults cwd (JObj kvs) = Ok resolved →
  (∀ key,
     key ∉ path_options → prop (JObj kvs) key ≠ JUndefined →
     prop resolved key = prop (JObj kvs) key)
  ∧ (∀ key,
       key ∈ path_options → prop (JObj kvs) key ≠ JUndefined →
       ∃ q, Path.resolve cwd [prop (JObj kvs) key] = Ok q
            ∧ prop resolved key = JStr q)
  ∧ (∀ key name,
       (key, name) ∈ option_defaults → prop (JObj kvs) key = JUndefined →
       ∃ j q, Path.join [prop (JObj kvs) "working-dir"; JStr name] = Ok j
              ∧ Path.resolve cwd [JStr j] = Ok q
              ∧ prop resolved key = JStr q)
  ∧ (∀ key,
       key ∈ extra_args_options → prop (JObj kvs) key = JUndefined →
       prop resolved key = JArr []).
Proof.
  intros (wd & b & r & m & kvs0 & q1 & q2 & q3 & q4 & q5 & Hwd & Hb & Hr & Hm
          & Hd & H1 & H2 & H3 & H4 & H5 & ->)%getOptionsWithDefaults_run.
  injection Hwd as <-.
  assert (P : ∀ key, prop (JObj kvs0) key =
    if is_undefined (prop (JObj kvs) key)
    then prop (JObj [("build-dir", JStr b); ("repo-dir", JStr r);
                     ("manifest-path", JStr m);
                     ("extra-flatpak-builder-args", JArr []);
                     ("extra-flatpak-build-bundle-args", JArr [])]) key
    else prop (JObj kvs) key).
  { intros key. rewrite <- Hd. apply prop_defaults2. }
  rewrite P in H1, H2, H3, H4, H5.
  split; [|split; [|split]].
  - intros key Hkey Hdef. unfold path_options in Hkey.
    rewrite !prop_obj_set_ne by set_solver. rewrite P.
    by destruct (prop (JObj kvs) key).
  - intros key Hkey Hdef.
    assert (Hu : is_undefined (prop (JObj kvs) key) = false).
    { by destruct (prop (JObj kvs) key). }
    unfold path_options in Hkey.
    repeat (apply elem_of_cons in Hkey as [->|Hkey]);
      [..|by apply elem_of_nil in Hkey];
      rewrite Hu in *; eexists; (split; [eassumption|]);
      rewrite ?prop_obj_set_ne by done; apply prop_obj_set_eq.
  - intros key name Hin Hundef. unfold option_defaults in Hin.
    repeat (apply elem_of_cons in Hin as [[= -> ->]|Hin]);
      [..|by apply elem_of_nil in Hin];
      rewrite Hundef in *; cbn in H2, H3, H4; eexists _, _;
      (split; [eassumption|]); (split; [eassumption|]);
      rewrite ?prop_obj_set_ne by done; apply prop_obj_set_eq.
  - intros key Hin Hundef. unfold extra_args_options in Hin.
    repeat (apply elem_of_cons in Hin as [->|Hin]);
      [..|by apply elem_of_nil in Hin];
      rewrite !prop_obj_set_ne by done; rewrite P, Hundef; reflexivity.
Qed.

(** X9.  The options, an object, are resolved exactly when
    [working-dir] and [bundle-path] are strings and each of [build-dir],
    [repo-dir] and [manifest-path] is a string or not given; otherwise
    resolving throws. *)
Theorem getOptionsWithDefaults_returns_iff kvs :
  (∃ resolved, getOptionsWithDefaults cwd (JObj kvs) = Ok resolved)
  ↔ (∃ wd, prop (JObj kvs) "working-dir" = JStr wd)
    ∧ (∃ bp, prop (JObj kvs) "bundle-path" = JStr bp)
    ∧ ∀ key name, (key, name) ∈ option_defaults →
                  path_or_absent (prop (JObj kvs) key).
Proof.
  split.
  - intros [resolved
      (wd & b & r & m & kvs0 & q1 & q2 & q3 & q4 & q5 & Hwd & Hb & Hr & Hm
       & Hd & H1 & H2 & H3 & H4 & H5 & ->)%getOptionsWithDefaults_run].
    injection Hwd as <-.
    assert (P : ∀ key, prop (JObj kvs0) key =
      if is_undefined (prop (JObj kvs) key)
      then prop (JObj [("build-dir", JStr b); ("repo-dir", JStr r);
                       ("manifest-path", JStr m);
                       ("extra-flatpak-builder-args", JArr []);
                       ("extra-flatpak-build-bundle-args", JArr [])]) key
      else prop (JObj kvs) key).
    { intros key. rewrite <- Hd. apply prop_defaults2. }
    rewrite P in H2, H3, H4, H5.
    assert (Hcase : ∀ key q,
      Path.resolve cwd
        [if is_undefined (prop (JObj kvs) key)
         then prop (JObj [("build-dir", JStr b); ("repo-dir", JStr r);
                          ("manifest-path", JStr m);
                          ("extra-flatpak-builder-args", JArr []);
                          ("extra-flatpak-build-bundle-args", JArr [])]) key
         else prop (JObj kvs) key] = Ok q →
      path_or_absent (prop (JObj kvs) key)).
    { intros key q Hq. destruct (is_undefined (prop (JObj kvs) key)) eqn:Eu.
      - left. by apply is_undefined_true.
      - right. exact (resolve_Ok_string _ _ Hq). }
    split; [exact (join_Ok_string _ _ _ Hb)|]. split.
    + destruct (is_undefined (prop (JObj kvs) "bundle-path")) eqn:Eu;
        [done|exact (resolve_Ok_string _ _ H5)].
    + intros key name Hin. unfold option_defaults in Hin.
      repeat (apply elem_of_cons in Hin as [[= -> ->]|Hin]);
        [by eapply Hcase..|by apply elem_of_nil in Hin].
  - intros ([wd Hwd] & [bp Hbp] & Hpaths).
    destruct (join_strings [wd; "build"]) as [b Hb]; cbn [map] in Hb.
    destruct (join_strings [wd; "repo"]) as [r Hr]; cbn [map] in Hr.
    destruct (join_strings [wd; "manifest.json"]) as [m Hm]; cbn [map] in Hm.
    set (dflt := [("build-dir", JStr b); ("repo-dir", JStr r);
                  ("manifest-path", JStr m);
                  ("extra-flatpak-builder-args", JArr []);
                  ("extra-flatpak-build-bundle-args", JArr [])]).
    assert (S : ∀ key,
      (∃ p, prop (defaults [] [JObj kvs; JObj dflt]) key = JStr p) →
      ∃ q, Path.resolve cwd [prop (defaults [] [JObj kvs; JObj dflt]) key]
           = Ok q).
    { intros key [p ->]. apply resolve_string. }
    destruct (S "working-dir") as [q1 H1].
    { exists wd. by rewrite prop_defaults2, Hwd. }
    destruct (S "build-dir") as [q2 H2].
    { eapply defaulted_path; [|reflexivity].
      apply (Hpaths _ "build"). unfold option_defaults. repeat constructor. }
    destruct (S "repo-dir") as [q3 H3].
    { eapply defaulted_path; [|reflexivity].
      apply (Hpaths _ "repo"). unfold option_defaults. repeat constructor. }
    destruct (S "manifest-path") as [q4 H4].
    { eapply defaulted_path; [|reflexivity].
      apply (Hpaths _ "manifest.json"). unfold option_defaults. repeat constructor. }
    destruct (S "bundle-path") as [q5 H5].
    { exists bp. by rewrite prop_defaults2, Hbp. }
    eapply (getOptionsWithDefaults_build (JStr wd) b r m _ q1 q2 q3 q4 q5);
      try done.
    cbn [get]. by rewrite Hwd.
Qed.

End OptionValues.

Lemma resolved_option_values_witness :
  Js.prop (JObj [("working-dir", JStr "/home/u/work");
                 ("arch", JStr "arm");
                 ("bundle-path", JStr "/home/u/out/app.flatpak");
                 ("build-dir", JStr "/home/u/work/build");
                 ("repo-dir", JStr "/home/u/work/repo");
                 ("manifest-path", JStr "/home/u/work/manifest.json");
                 ("extra-flatpak-builder-args", JArr []);
                 ("extra-flatpak-build-bundle-args", JArr [])]) "arch"
  = Js.prop (JObj [("working-dir", JStr "work"); ("arch", JStr "arm");
                   ("bundle-path", JStr "out/app.flatpak")]) "arch".
Proof.
  refine (proj1 (resolved_option_values "/home/u"
                   [("working-dir", JStr "work"); ("arch", JStr "arm");
                    ("bundle-path", JStr "out/app.flatpak")] _ _)
            "arch" _ _).
  - vm_compute. reflexivity.
  - unfold path_options. intros H.
    repeat (apply elem_of_cons in H as [H|H]; [discriminate H|]).
    by apply elem_of_nil in H.
  - discriminate.
Defined.

(** ** The working directory *)

Section WorkingDir.

Import Js.

Context {W : Type} `{!Sys W}.

(** The promise of [ensureWorkingDir], for options that are an object. *)
Lemma ensureWorkingDir_run kvs :
  ∃ working,
    ensureWorkingDir (JObj kvs) = Ok working ∧
    ∀ w,
      working w =
      if truthy (prop (JObj kvs) "working-dir") then
        let '(res, w1) := sys_mkdirs (prop (JObj kvs) "working-dir") w in
        (res ≫= λ _, Ok (JObj kvs), w1,
         [EvMkdirs (prop (JObj kvs) "working-dir") res])
      else
        let '(res, w1) := sys_tmpdir w in
        (res ≫= λ dir, Ok (JObj (obj_set kvs "working-dir" (JStr dir))), w1,
         [EvTmpDir res]).
Proof.
  unfold ensureWorkingDir. cbn [get]. rewrite bind_Ok_l.
  eexists; split; [reflexivity|]. intros w.
  destruct (truthy (prop (JObj kvs) "working-dir")); cbn [negb].
  - unfold mbind at 1, Async_bind, mkdirs.
    destruct (sys_mkdirs _ w) as [[[]|e] w1]; reflexivity.
  - unfold mbind at 1, Async_bind, tmpdir.
    destruct (sys_tmpdir w) as [[dir|e] w1]; reflexivity.
Qed.

(** X10.  For options that are an object, when the promise of
    [ensureWorkingDir] is fulfilled every option but [working-dir] is as
    it was; with a [working-dir] that is set the options are untouched
    and the only thing asked of the environment is to make that
    directory; without one the only thing asked is a temporary
    directory, which is not made again, and its name is the
    [working-dir] from then on. *)
Theorem ensureWorkingDir_fulfilled kvs working w o w1 t :
  ensureWorkingDir (JObj kvs) = Ok working →
  working w = (Ok o, w1, t) →
  (∀ key, key ≠ "working-dir" → prop o key = prop (JObj kvs) key) ∧
  if truthy (prop (JObj kvs) "working-dir")
  then o = JObj kvs ∧ t = [EvMkdirs (prop (JObj kvs) "working-dir") (Ok ())]
  else ∃ dir, prop o "working-dir" = JStr dir ∧ t = [EvTmpDir (Ok dir)].
Proof.
  destruct (ensureWorkingDir_run kvs) as (working' & -> & Hrun).
  intros [= <-]. rewrite Hrun.
  destruct (truthy (prop (JObj kvs) "working-dir")).
  - destruct (sys_mkdirs _ w) as [[[]|e] w'] eqn:E; [|done].
    intros [= <- <- <-]. by split.
  - destruct (sys_tmpdir w) as [[dir|e] w'] eqn:E; [|done].
    intros [= <- <- <-]. split.
    + intros key Hne. by apply prop_obj_set_ne.
    + exists dir. split; [apply prop_obj_set_eq|done].
Qed.

End WorkingDir.

Lemma ensureWorkingDir_fulfilled_witness :
  ∃ dir,
    Js.prop (JObj [("arch", JStr "x86_64");
                   ("working-dir", JStr "/var/tmp/tmp-0")]) "working-dir"
    = JStr dir
    ∧ [EvTmpDir (Ok "/var/tmp/tmp-0")] = [EvTmpDir (Ok dir)].
Proof.
  refine (proj2 (ensureWorkingDir_fulfilled (Sys0 := NodeFs.sys Sample.cwd)
           [("arch", JStr "x86_64")]
           (dir ← tmpdir (Sys0 := NodeFs.sys Sample.cwd);
            settle (Js.set (JObj [("arch", JStr "x86_64")]) "working-dir"
                      (JStr dir)))
           (Sample.world [])
           (JObj [("arch", JStr "x86_64");
                  ("working-dir", JStr "/var/tmp/tmp-0")])
           ((dir ← tmpdir (Sys0 := NodeFs.sys Sample.cwd);
             settle (Js.set (JObj [("arch", JStr "x86_64")]) "working-dir"
                       (JStr dir))) (Sample.world [])).1.2
           [EvTmpDir (Ok "/var/tmp/tmp-0")] _ _)).
  - reflexivity.
  - vm_compute. reflexivity.
Defined.


(** ** Runs as a whole *)

Section Runs.

Import Js.

Variable kebabCase : string → string.
Variable cwd : string.
Context {W : Type} `{!Sys W}.

(** X11.  With options that are [undefined] or [null], the call itself
    throws: nothing is asked of the environment and the callback is
    never called. *)
Theorem bundle_without_options_throws manifest options (w : W) :
  options = JUndefined ∨ options = JNull →
  ∃ e, bundle kebabCase cwd manifest options w = (Thrown e, w, []).
Proof. intros [->| ->]; by eexists. Qed.



(** The run up to the chain of stages: either it ends with an error
    after events of the working directory only, or the chain runs on
    the resolved options and the defaulted manifest. *)
Lemma pipeline_run manifest options working w r w2 t :
  ensureWorkingDir options = Ok working →
  pipeline cwd manifest options working w = (r, w2, t) →
  (∃ e, r = Throw e ∧ Forall workspace_event t)
  ∨ (∃ o1 w1 t1 o2 m2 r2 t2,
        working w = (Ok o1, w1, t1) ∧
        getOptionsWithDefaults cwd o1 = Ok o2 ∧
        getManifestWithDefaults manifest = Ok m2 ∧
        then_chain (stages cwd o2 m2) w1 = (r2, w2, t2) ∧
        t = t1 ++ t2 ∧ Forall workspace_event t1 ∧
        r = match r2 with Ok _ => Ok (o2, m2) | Throw e => Throw e end).
Proof.
  intros Hw Hp. pose proof (ensureWorkingDir_events _ _ Hw) as Hev.
  destruct (working w) as [[[o1|e] w1] t1] eqn:E.
  2:{ rewrite (pipeline_workspace_rejected _ _ _ _ _ _ _ _ E) in Hp.
      injection Hp as <- <- <-. left. exists e. split; [done|]. by eapply Hev. }
  destruct (getOptionsWithDefaults cwd o1) as [o2|e] eqn:Ho.
  2:{ rewrite (pipeline_options_throw _ _ _ _ _ _ _ _ _ E Ho) in Hp.
      injection Hp as <- <- <-. left. exists e. split; [done|]. by eapply Hev. }
  destruct (getManifestWithDefaults manifest) as [m2|e] eqn:Hm.
  2:{ rewrite (pipeline_manifest_throw _ _ _ _ _ _ _ _ _ _ E Ho Hm) in Hp.
      injection Hp as <- <- <-. left. exists e. split; [done|]. by eapply Hev. }
  rewrite (pipeline_chain _ _ _ _ _ _ _ _ _ _ E Ho Hm) in Hp.
  destruct (then_chain (stages cwd o2 m2) w1) as [[r2 w2'] t2] eqn:Hc.
  injection Hp as <- <- <-. right.
  exists o1, w1, t1, o2, m2, r2, t2. repeat split; try done. by eapply Hev.
Qed.

(** X13.  With a manifest that is [undefined] or [null], no run
    completes successfully: a call that returns gives the callback an
    error, after events that only prepare the working directory. *)
Theorem run_without_manifest_fails manifest options w w1 t :
  manifest = JUndefined ∨ manifest = JNull →
  bundle kebabCase cwd manifest options w = (Returned, w1, t) →
  ∃ e t0, t = t0 ++ [EvCallback (Throw e)] ∧ Forall workspace_event t0.
Proof.
  intros Hm. unfold bundle.
  destruct (ensureWorkingDir (kebabify kebabCase options))
    as [working|e] eqn:Hw; [|done].
  destruct (pipeline _ _ _ working w) as [[outcome w'] t'] eqn:Hp.
  intros [= <- <-].
  apply (pipeline_run _ _ _ _ _ _ _ Hw) in Hp
    as [(e & -> & Ht)
       |(o1 & wa & t1 & o2 & m2 & r2 & t2 & _ & _ & Hm2 & _)].
  - by exists e, t'.
  - by destruct Hm as [-> | ->].
Qed.

End Runs.

Lemma bundle_without_options_throws_witness :
  ∃ e, bundle (Sys0 := NodeFs.sys Sample.cwd) Kebab.kebabCase Sample.cwd
         Sample.manifest JNull (Sample.world [])
       = (Thrown e, Sample.world [], []).
Proof.
  apply (bundle_without_options_throws Kebab.kebabCase Sample.cwd).
  right. reflexivity.
Defined.


Lemma run_without_manifest_fails_witness :
  ∃ e t0,
    Sample.trace (Sample.run JNull Sample.options [])
    = t0 ++ [EvCallback (Throw e)] ∧ Forall workspace_event t0.
Proof.
  apply (run_without_manifest_fails Kebab.kebabCase Sample.cwd
           (Sys0 := NodeFs.sys Sample.cwd)
           JNull Sample.options (Sample.world [])
           (Sample.run JNull Sample.options []).1.2).
  - right. reflexivity.
  - vm_compute. reflexivity.
Defined.

(** ** The order of the stages *)

Section StageOrder.

Import Js.

Variable kebabCase : string → string.
Variable cwd : string.
Context {W : Type} `{!Sys W}.

Lemma then_chain_cons_inv (stage : Async W ()) rest w r w2 t :
  then_chain (stage :: rest) w = (r, w2, t) →
  (∃ w1 t1 t2,
      stage w = (Ok (), w1, t1) ∧ then_chain rest w1 = (r, w2, t2)
      ∧ t = t1 ++ t2)
  ∨ (∃ e, stage w = (Throw e, w2, t) ∧ r = Throw e).
Proof.
  cbn [then_chain].
  intros [([] & w1 & t1 & t2 & E1 & E2 & ->)|(e & E1 & ->)]%bind_inv.
  - left. by exists w1, t1, t2.
  - right. by exists e.
Qed.

Lemma get_Ok_prop v key x : get v key = Ok x → x = prop v key.
Proof. destruct v; try done; by intros [= <-]. Qed.

Lemma writeFile_inv file data (w : W) r w1 t :
  writeFile file data w = (r, w1, t) → t = [EvWriteFile file data r].
Proof.
  unfold writeFile. destruct (sys_writeFile file data w) as [r0 w0].
  by intros [= <- <- <-].
Qed.

Lemma writeJsonFile_inv options manifest (w : W) r w1 t :
  writeJsonFile options manifest w = (r, w1, t) →
  t = [] ∨ ∃ file, t = [EvWriteFile file manifest r].
Proof.
  unfold writeJsonFile.
  intros [(file & _ & E)|(e & _ & _ & _ & ->)]%settle_bind_inv; [|by left].
  apply writeFile_inv in E. right. by exists file.
Qed.

Lemma flatpakBuilder_inv options finish (w : W) r w1 t :
  flatpakBuilder options finish w = (r, w1, t) →
  t = [] ∨ ∃ args dir sr, t = [EvSpawn "flatpak-builder" args dir sr].
Proof.
  unfold flatpakBuilder.
  intros [(args & _ & E)|(e & _ & _ & _ & ->)]%settle_bind_inv; [|by left].
  apply spawnWithLogging_inv in E
    as [(e & _ & _ & ->)|(dir & sr & _ & -> & _)]; [by left|].
  right. by exists args, dir, sr.
Qed.

Lemma writeJsonFile_fulfilled options manifest (w : W) w1 t :
  writeJsonFile options manifest w = (Ok (), w1, t) →
  t = [EvWriteFile (prop options "manifest-path") manifest (Ok ())].
Proof.
  unfold writeJsonFile.
  intros [(file & Hfile%get_Ok_prop & E)|(e & _ & ? & _)]%settle_bind_inv;
    [|done].
  apply writeFile_inv in E. by subst.
Qed.

Lemma flatpakBuilder_fulfilled options finish (w : W) w1 t :
  flatpakBuilder options finish w = (Ok (), w1, t) →
  ∃ args dir,
    flatpakBuilder_args options finish = Ok args ∧
    t = [EvSpawn "flatpak-builder" args dir (Closed (Some 0%Z))].
Proof.
  unfold flatpakBuilder.
  intros [(args & Hargs & E)|(e & _ & ? & _)]%settle_bind_inv; [|done].
  apply spawnWithLogging_inv in E
    as [(e & _ & ? & _)|(dir & sr & _ & -> & Hr)]; [done|].
  exists args, dir. split; [done|].
  destruct sr as [e|code]; [done|]. case_bool_decide; by subst.
Qed.

Lemma flatpakBuilder_args_mode options finish args :
  flatpakBuilder_args options finish = Ok args →
  JStr (if finish then "--finish-only" else "--build-only") ∈ args.
Proof.
  unfold flatpakBuilder_args.
  intros (? & _ & H)%bind_Ok_inv.
  apply bind_Ok_inv in H as (? & _ & H).
  apply bind_Ok_inv in H as (? & _ & H).
  apply bind_Ok_inv in H as (? & _ & H).
  apply bind_Ok_inv in H as (? & _ & H).
  apply bind_Ok_inv in H as (? & _ & H).
  apply bind_Ok_inv in H as (? & _ & H).
  apply bind_Ok_inv in H as (? & _ & H).
  apply bind_Ok_inv in H as (? & _ & H).
  apply Ok_inj in H. subst args. unfold Array_push.
  rewrite !elem_of_app. left. left.
  destruct finish; cbn [negb];
    unfold addCommandLineOption at 1; cbn [truthy negb is_true];
    unfold Array_push; rewrite elem_of_app; right; by left.
Qed.


Lemma not_spawn_elem t command args dir sr :
  Forall not_spawn t → EvSpawn command args dir sr ∉ t.
Proof. intros Ht Hin. by apply (proj1 (Forall_forall _ _) Ht) in Hin. Qed.

Lemma workspace_not_spawn ev : workspace_event ev → not_spawn ev.
Proof. by destruct ev. Qed.

Lemma workspace_not_staging ev : workspace_event ev → not_staging ev.
Proof. by destruct ev. Qed.

(** X14.  No process is started before the manifest is written: every
    start of a child process comes after a successful write of the
    defaulted manifest. *)
Theorem manifest_written_before_processes manifest options w c w2 t
    pre command args dir sr post :
  bundle kebabCase cwd manifest options w = (c, w2, t) →
  t = pre ++ EvSpawn command args dir sr :: post →
  ∃ file defaulted,
    getManifestWithDefaults (kebabify kebabCase manifest) = Ok defaulted ∧
    EvWriteFile file defaulted (Ok ()) ∈ pre.
Proof.
  unfold bundle.
  destruct (ensureWorkingDir (kebabify kebabCase options))
    as [working|e] eqn:Hw.
  2:{ intros [= <- <- <-] H. by destruct pre. }
  destruct (pipeline _ _ _ working w) as [[outcome w'] t'] eqn:Hp.
  intros [= <- <- <-] Ht.
  apply (pipeline_run cwd _ _ _ _ _ _ _ Hw) in Hp
    as [(e & -> & Hws)
       |(o1 & w1 & t1 & o2 & m2 & r2 & t2 & _ & _ & Hm2 & Hc & -> & Hws & _)].
  { exfalso. apply (not_spawn_elem (t' ++ [EvCallback (Throw e)])
                      command args dir sr).
    - apply Forall_app. split; [|by repeat constructor].
      eapply Forall_impl; [exact Hws|apply workspace_not_spawn].
    - rewrite Ht. set_solver. }
  exists (prop o2 "manifest-path"), m2. split; [done|].
  apply then_chain_cons_inv in Hc
    as [(wa & ta & tb & Hwrite & _ & ->)|(e & Hwrite & _)].
  - apply writeJsonFile_fulfilled in Hwrite as ->.
    rewrite <- !(assoc_L (++)), (assoc_L (++) t1) in Ht.
    apply (find_excluded not_spawn) in Ht as (pre2 & -> & _).
    + set_solver.
    + apply Forall_app. split; [|by repeat constructor].
      eapply Forall_impl; [exact Hws|apply workspace_not_spawn].
    + by intros H.
  - exfalso. apply (not_spawn_elem ((t1 ++ t2) ++ [EvCallback outcome])
                      command args dir sr).
    + rewrite !Forall_app. split; [split|by repeat constructor].
      * eapply Forall_impl; [exact Hws|apply workspace_not_spawn].
      * eapply Forall_impl; [|apply fs_event_not_spawn].
        by eapply (writeJsonFile_events o2 m2).
    + rewrite Ht. set_solver.
Qed.

(** X15.  Nothing is staged before the builder has built: every copy of
    a file and every creation of a link comes after a start of
    [flatpak-builder] with [--build-only] that closed with status 0. *)
Theorem staging_after_build manifest options w c w2 t pre ev post :
  bundle kebabCase cwd manifest options w = (c, w2, t) →
  t = pre ++ ev :: post →
  staging_event ev →
  ∃ args dir,
    JStr "--build-only" ∈ args ∧
    EvSpawn "flatpak-builder" args dir (Closed (Some 0%Z)) ∈ pre.
Proof.
  intros Hrun Ht Hev.
  assert (Hnot : ¬ not_staging ev).
  { destruct ev; try done; intros Hn; exact Hn. }
  assert (Hno : ∀ l, Forall not_staging l → t = l → False).
  { intros l Hl ->. apply Hnot.
    apply (proj1 (Forall_forall _ _) Hl). rewrite Ht. set_solver. }
  revert Hrun. unfold bundle.
  destruct (ensureWorkingDir (kebabify kebabCase options))
    as [working|e] eqn:Hw.
  2:{ intros [= <- <- <-]. by destruct pre. }
  destruct (pipeline _ _ _ working w) as [[outcome w'] t'] eqn:Hp.
  intros [= <- <- Heq].
  apply (pipeline_run cwd _ _ _ _ _ _ _ Hw) in Hp
    as [(e & -> & Hws)
       |(o1 & w1 & t1 & o2 & m2 & r2 & t2 & _ & _ & _ & Hc & -> & Hws & _)].
  { exfalso. eapply Hno; [|symmetry; exact Heq].
    apply Forall_app. split; [|by repeat constructor].
    eapply Forall_impl; [exact Hws|apply workspace_not_staging]. }
  assert (Hws' : Forall not_staging t1).
  { eapply Forall_impl; [exact Hws|apply workspace_not_staging]. }
  apply then_chain_cons_inv in Hc
    as [(wa & ta & tb & Hwrite & Hc & ->)|(e & Hwrite & _)].
  2:{ exfalso. eapply Hno; [|symmetry; exact Heq].
      rewrite !Forall_app. split; [split; [done|]|by repeat constructor].
      apply writeJsonFile_inv in Hwrite as [->|[file ->]];
        by repeat constructor. }
  apply writeJsonFile_fulfilled in Hwrite as ->.
  apply then_chain_cons_inv in Hc
    as [(wb & tb1 & tc & Hbuild & _ & ->)|(e & Hbuild & _)].
  2:{ exfalso. eapply Hno; [|symmetry; exact Heq].
      rewrite !Forall_app.
      split; [split; [done|split; [by repeat constructor|]]
             |by repeat constructor].
      apply flatpakBuilder_inv in Hbuild as [->|(? & ? & ? & ->)];
        by repeat constructor. }
  apply flatpakBuilder_fulfilled in Hbuild as (bargs & bdir & Hargs & ->).
  exists bargs, bdir. split.
  { by apply (flatpakBuilder_args_mode o2 false). }
  rewrite Ht in Heq.
  rewrite <- !(assoc_L (++)) in Heq.
  rewrite (assoc_L (++) t1), (assoc_L (++) (t1 ++ _)) in Heq.
  apply (find_excluded not_staging) in Heq as (pre2 & -> & _).
  - set_solver.
  - rewrite !Forall_app. split; [split; [done|]|]; by repeat constructor.
  - done.
Qed.


End StageOrder.

Lemma manifest_written_before_processes_witness :
  ∃ file defaulted,
    getManifestWithDefaults (kebabify Kebab.kebabCase Sample.manifest)
    = Ok defaulted ∧
    EvWriteFile file defaulted (Ok ())
    ∈ take 2 (Sample.trace (Sample.run Sample.manifest Sample.options [])).
Proof.
  apply (manifest_written_before_processes Kebab.kebabCase Sample.cwd
           (Sys0 := NodeFs.sys Sample.cwd)
           Sample.manifest Sample.options (Sample.world [])
           (Sample.run Sample.manifest Sample.options []).1.1
           (Sample.run Sample.manifest Sample.options []).1.2
           (Sample.run Sample.manifest Sample.options []).2
           _ "flatpak-builder"
           [JStr "--repo=/w/repo"; JStr "--force-clean"; JStr "--build-only";
            JStr "/w/build"; JStr "/w/manifest.json"]
           (JStr "/w") (Closed (Some 0%Z))
           (drop 3 (Sample.trace
                      (Sample.run Sample.manifest Sample.options [])))).
  - vm_compute. reflexivity.
  - vm_compute. reflexivity.
Defined.

Lemma staging_after_build_witness :
  ∃ args dir,
    JStr "--build-only" ∈ args ∧
    EvSpawn "flatpak-builder" args dir (Closed (Some 0%Z))
    ∈ take 4 (Sample.trace (Sample.run Sample.manifest Sample.options [])).
Proof.
  apply (staging_after_build Kebab.kebabCase Sample.cwd
           (Sys0 := NodeFs.sys Sample.cwd)
           Sample.manifest Sample.options (Sample.world [])
           (Sample.run Sample.manifest Sample.options []).1.1
           (Sample.run Sample.manifest Sample.options []).1.2
           (Sample.run Sample.manifest Sample.options []).2
           _ (EvCopy "/home/u/d" "/w/build/files/sub/" (Ok ()))
           (drop 5 (Sample.trace
                      (Sample.run Sample.manifest Sample.options [])))).
  - vm_compute. reflexivity.
  - vm_compute. reflexivity.
  - exact I.
Defined.


(** ** Staging files and links *)

Section Staging.

Import Js.

Variable cwd : string.
Context {W : Type} `{!Sys W}.









End Staging.



(** ** The child processes *)

Section Processes.

Import Js.

Variable kebabCase : string → string.
Variable cwd : string.
Context {W : Type} `{!Sys W}.





End Processes.

